(** * notes-app: the note repository behind the screens

    A shallow embedding of the storage logic of the React Native notes
    application: [types/index.ts] (the data model and the category table),
    [NoteScreen.tsx] (validation, [saveNote], the content input handler),
    [HomeScreen.tsx] ([loadNotes], [deleteNote],
    [getLatestNotesForCategory]), [SummaryScreen.tsx] (per-category counts)
    and [SettingsScreen.tsx] ([clearAllNotes]).

    Conventions of the embedding.
    - A JavaScript string is a [string]: a sequence of code units, here
      restricted to the 8-bit range; [String.length] is [.length].
    - [undefined]/[null] is [None]; truthiness of a string is non-emptiness.
    - [AsyncStorage], the clock ([Date.now], [new Date]) and the UI effects
      ([Alert.alert], [navigation.navigate]) are threaded through an explicit
      world in a small state-and-exception monad; [await] is sequencing.
    - [JSON.stringify]/[JSON.parse] and the ISO-8601 rendering of dates are
      platform functions: they are an interface ([Platform]) with the laws the
      code relies on, and [reference_platform] is an executable instance.
      [JSON.parse] is read at type [Note[]], as its callers assert; where a
      property ranges over every stored text it is read on JSON values
      ([JSONValues]).
    - The content field is React Native's [TextInput] with [maxLength]. *)

From Stdlib Require Import ZArith List String Ascii Lia Sorted Permutation.
From Stdlib Require Import DecimalString DecimalZ DecimalPos.
From stdpp Require Import gmap strings list.

Local Open Scope string_scope.
Local Open Scope list_scope.

(** ** Strings as JavaScript sees them *)

(** Truthiness of a string value: only the empty string is falsy. *)
Definition truthy (s : string) : bool := negb (s =? "")%string.

(** Truthiness of an optional string ([undefined] is falsy). *)
Definition truthy_opt (o : option string) : bool :=
  match o with
  | Some s => truthy s
  | None => false
  end.

(** [a || b] on an optional string and a string. *)
Definition or_else (o : option string) (d : string) : string :=
  match o with
  | Some s => if truthy s then s else d
  | None => d
  end.

(** The code units [String.prototype.trim] strips, within the 8-bit range:
    TAB, LF, VT, FF, CR, SPACE and NO-BREAK SPACE. *)
Definition isWhiteSpace (c : ascii) : bool :=
  let n := nat_of_ascii c in
  (((9 <=? n) && (n <=? 13)) || (n =? 32) || (n =? 160))%nat.

Fixpoint trimStart (s : string) : string :=
  match s with
  | EmptyString => EmptyString
  | String c r => if isWhiteSpace c then trimStart r else s
  end.

Fixpoint trimEnd (s : string) : string :=
  match s with
  | EmptyString => EmptyString
  | String c r =>
      match trimEnd r with
      | EmptyString => if isWhiteSpace c then EmptyString else String c EmptyString
      | r' => String c r'
      end
  end.

(** [s.trim()] *)
Definition trim (s : string) : string := trimEnd (trimStart s).

(** [s.slice(0, n)] for [0 <= n]. *)
Fixpoint slice0 (n : nat) (s : string) : string :=
  match n, s with
  | S k, String c r => String c (slice0 k r)
  | _, _ => EmptyString
  end.

(** [n.toString()] for an integral number: its decimal representation. *)
Definition Number_toString (n : Z) : string :=
  NilZero.string_of_int (Z.to_int n).

(** ** Data model ([types/index.ts]) *)

Module Note.
Record t : Type := mk {
  id : string;
  title : string;
  content : string;
  categoryId : string;
  createdAt : string;
  updatedAt : string
}.
End Note.

Module Category.
Record t : Type := mk {
  id : string;
  name : string;
  color : string
}.
End Category.

Definition CATEGORIES : list Category.t :=
  [ Category.mk "work-study" "Work and Study" "#FF6B6B";
    Category.mk "life" "Life" "#4ECDC4";
    Category.mk "health" "Health and Well-being" "#45B7D1" ].

(** [CATEGORIES[0].id] *)
Definition CATEGORIES_0_id : string :=
  match CATEGORIES with
  | c :: _ => Category.id c
  | [] => ""
  end.

(** The ids of the fixed category set. *)
Definition category_ids : list string := map Category.id CATEGORIES.

Definition MAX_CONTENT_LENGTH : nat := 200.
Definition MIN_CONTENT_LENGTH : nat := 1.

(** ** Platform interface: JSON and dates *)

Class Platform : Type := {
  (** [JSON.stringify] on a [Note[]] *)
  JSON_stringify : list Note.t -> string;
  (** [JSON.parse] read at type [Note[]]; [None] is a thrown [SyntaxError] *)
  JSON_parse : string -> option (list Note.t);
  (** [new Date(ms).toISOString()] *)
  toISOString : Z -> string;
  (** [new Date(s).getTime()]; [None] is [NaN] *)
  Date_getTime : string -> option Z;
  JSON_parse_stringify : forall ns, JSON_parse (JSON_stringify ns) = Some ns;
  JSON_parse_empty : JSON_parse "" = None;
  getTime_toISOString : forall t, Date_getTime (toISOString t) = Some t;
  getTime_empty : Date_getTime "" = None
}.

(** ** The world: storage cell, its availability, the clock *)

Record World : Type := mkWorld {
  (** the value under the key ['notes'], if any *)
  item : option string;
  (** whether [getItem] resolves (otherwise it rejects) *)
  reads_ok : bool;
  (** whether [setItem]/[removeItem] resolve *)
  writes_ok : bool;
  (** the successive readings of the clock, in milliseconds *)
  time : nat -> Z;
  (** how many readings were taken so far *)
  reads : nat
}.

Definition set_item (v : option string) (w : World) : World :=
  mkWorld v (reads_ok w) (writes_ok w) (time w) (reads w).

Definition set_io (r wr : bool) (w : World) : World :=
  mkWorld (item w) r wr (time w) (reads w).

Definition tick (w : World) : World :=
  mkWorld (item w) (reads_ok w) (writes_ok w) (time w) (S (reads w)).

(** The next reading of the clock. *)
Definition now (w : World) : Z := time w (reads w).

(** Outcome of a computation: a value, or a thrown exception / rejected
    promise. *)
Inductive Res (A : Type) : Type :=
| Ok (a : A)
| Threw.
Arguments Ok {A} a.
Arguments Threw {A}.

Definition M (A : Type) : Type := World -> Res A * World.

Definition ret {A} (a : A) : M A := fun w => (Ok a, w).
Definition throw {A} : M A := fun w => (Threw, w).
Definition bind {A B} (m : M A) (k : A -> M B) : M B :=
  fun w =>
    match m w with
    | (Ok a, w') => k a w'
    | (Threw, w') => (Threw, w')
    end.
(** [try { m } catch (error) { h }] *)
Definition try_catch {A} (m : M A) (h : M A) : M A :=
  fun w =>
    match m w with
    | (Ok a, w') => (Ok a, w')
    | (Threw, w') => h w'
    end.

Declare Scope js_scope.
Delimit Scope js_scope with js.
Notation "'let*' x ':=' m 'in' k" := (bind m (fun x => k))
  (at level 10, x name, m at level 100, k at level 200) : js_scope.
Local Open Scope js_scope.

Module AsyncStorage.
(** [AsyncStorage.getItem('notes')] *)
Definition getItem : M (option string) :=
  fun w => if reads_ok w then (Ok (item w), w) else (Threw, w).
(** [AsyncStorage.setItem('notes', v)] *)
Definition setItem (v : string) : M unit :=
  fun w => if writes_ok w then (Ok tt, set_item (Some v) w) else (Threw, w).
(** [AsyncStorage.removeItem('notes')] *)
Definition removeItem : M unit :=
  fun w => if writes_ok w then (Ok tt, set_item None w) else (Threw, w).
End AsyncStorage.

(** [Date.now()] *)
Definition Date_now : M Z := fun w => (Ok (now w), tick w).

(** What a handler does to the user interface when it ends. *)
Inductive UiEffect : Type :=
| Navigate (screen : string)
| Alert (heading message : string)
| ClearedPopupThenNavigate (screen : string).

Section Screens.
Context {P : Platform}.

(** [new Date().toISOString()] *)
Definition new_Date_toISOString : M string :=
  let* t := Date_now in ret (toISOString t).

(** [JSON.parse(s)] as a computation. *)
Definition JSON_parse_M (s : string) : M (list Note.t) :=
  match JSON_parse s with
  | Some ns => ret ns
  | None => throw
  end.

(** The collection a storage value denotes when it is read the way
    [saveNote] reads it: [storedNotes ? JSON.parse(storedNotes) : []].
    [None] when [JSON.parse] throws. *)
Definition decode (storedNotes : option string) : option (list Note.t) :=
  match storedNotes with
  | Some s => if truthy s then JSON_parse s else Some []
  | None => Some []
  end.

(** The collection persisted in a world. *)
Definition persisted (w : World) : option (list Note.t) := decode (item w).
End Screens.

(** ** JSON values *)

(** What [JSON.parse] can return. A number is kept by its literal; the
    members of an object are in the order of the text, each name once. *)
#[warnings="-register-all"] Inductive JSON : Type :=
| JNull
| JBool (b : bool)
| JNumber (literal : string)
| JString (s : string)
| JArray (elements : list JSON)
| JObject (members : list (string * JSON)).

(** The value [JSON.parse] returns on the text of a note: the members of the
    object literal of [saveNote], in its order. *)
Definition of_note (n : Note.t) : JSON :=
  JObject
    [ ("id", JString (Note.id n));
      ("title", JString (Note.title n));
      ("content", JString (Note.content n));
      ("categoryId", JString (Note.categoryId n));
      ("createdAt", JString (Note.createdAt n));
      ("updatedAt", JString (Note.updatedAt n)) ].

Definition of_notes (ns : list Note.t) : JSON := JArray (map of_note ns).

(** [JSON.parse] without the type assertion of its callers: the value, or
    [None] for a thrown [SyntaxError]. It returns the notes on their text;
    where it returns notes or throws, so does the reading at type
    [Note[]]. *)
Class JSONValues {P : Platform} : Type := {
  JSON_parse_value : string -> option JSON;
  parse_value_stringify :
    forall ns, JSON_parse_value (JSON_stringify ns) = Some (of_notes ns);
  parse_value_notes :
    forall s ns, JSON_parse_value s = Some (of_notes ns) ->
                 JSON_parse s = Some ns;
  parse_value_throws :
    forall s, JSON_parse_value s = None -> JSON_parse s = None
}.

Section Values.
Context {P : Platform} {V : JSONValues}.

(** [JSON.parse(s)] as a computation, on values. *)
Definition JSON_parse_value_M (s : string) : M JSON :=
  match JSON_parse_value s with
  | Some v => ret v
  | None => throw
  end.

(** [v[name]] for a property that no prototype has: [None] is the
    [TypeError] of a property read on [null], [Some None] is [undefined]. *)
Definition get_property (v : JSON) (name : string) : option (option JSON) :=
  match v with
  | JNull => None
  | JObject members =>
      Some (match find (fun m => (fst m =? name)%string) members with
            | Some m => Some (snd m)
            | None => None
            end)
  | _ => Some None
  end.

(** [v === s] for a string [s]. *)
Definition strict_equals_string (v : option JSON) (s : string) : bool :=
  match v with
  | Some (JString x) => (x =? s)%string
  | _ => false
  end.

End Values.

(** ** React Native components *)

(** [<TextInput maxLength={n} onChangeText={...} />]: the text the component
    holds, and hands to [onChangeText], when the user's entry (typed or
    pasted at the end of the field, or into the empty field) would make the
    field hold [text]. The component admits at most [n] characters; what
    exceeds them is cut off. *)
Definition TextInput_maxLength (n : nat) (text : string) : string :=
  if (String.length text <=? n)%nat then text else slice0 n text.

(** ** NoteScreen.tsx *)

Module NoteScreen.

(** [route.params] of the ['Note'] route. *)
Record RouteParams : Type := mkParams {
  noteId : option string;
  categoryId : option string
}.

(** The component state ([useState] cells). *)
Record State : Type := mkState {
  title : string;
  content : string;
  selectedCategory : string;
  dropdownOpen : bool;
  error : option string
}.

(** The initial values of the [useState] cells. *)
Definition initial : State := mkState "" "" CATEGORIES_0_id false None.

Definition setTitle (v : string) (st : State) : State :=
  mkState v (content st) (selectedCategory st) (dropdownOpen st) (error st).
Definition setContent (v : string) (st : State) : State :=
  mkState (title st) v (selectedCategory st) (dropdownOpen st) (error st).
Definition setSelectedCategory (v : string) (st : State) : State :=
  mkState (title st) (content st) v (dropdownOpen st) (error st).
Definition setDropdownOpen (v : bool) (st : State) : State :=
  mkState (title st) (content st) (selectedCategory st) v (error st).
Definition setError (v : option string) (st : State) : State :=
  mkState (title st) (content st) (selectedCategory st) (dropdownOpen st) v.

(** [validateContent]: the verdict and the state after [setError]. *)
Definition validateContent (st : State) : bool * State :=
  if negb (truthy (trim (content st))) then
    (false, setError (Some "Note content is required") st)
  else if (String.length (trim (content st)) <? MIN_CONTENT_LENGTH)%nat then
    (false, setError (Some "Note content must be at least 1 character long") st)
  else (true, setError None st).

(** [handleContentChange] *)
Definition handleContentChange (text : string) (st : State) : State :=
  if (String.length text <=? MAX_CONTENT_LENGTH)%nat then
    let st1 := setContent text st in
    if truthy_opt (error st1) then setError None st1 else st1
  else st.

(** The content field,
    [<TextInput value={content} onChangeText={handleContentChange}
       maxLength={MAX_CONTENT_LENGTH} />]: the state after an entry that would
    make the field hold [text]. *)
Definition contentInput (text : string) (st : State) : State :=
  handleContentChange (TextInput_maxLength MAX_CONTENT_LENGTH text) st.

(** The dropdown row of a category: [setSelectedCategory(category.id);
    setDropdownOpen(false)]. *)
Definition pickCategory (c : Category.t) (st : State) : State :=
  setDropdownOpen false (setSelectedCategory (Category.id c) st).

(** The dropdown header: [setDropdownOpen(!dropdownOpen)]. *)
Definition toggleDropdown (st : State) : State :=
  setDropdownOpen (negb (dropdownOpen st)) st.

(** The [disabled] property of the Save button: [!content.trim()]. *)
Definition saveDisabled (st : State) : bool :=
  negb (truthy (trim (content st))).

(** The text of the dropdown header:
    [CATEGORIES.find(c => c.id === selectedCategory)?.name
     || 'Choose a category']. *)
Definition dropdownText (st : State) : string :=
  or_else
    (option_map Category.name
       (find (fun c => (Category.id c =? selectedCategory st)%string)
          CATEGORIES))
    "Choose a category".

(** The number in front of the slash of the character counter:
    [content.length]. *)
Definition charCount (st : State) : nat := String.length (content st).

Section WithPlatform.
Context {P : Platform}.

(** [loadNote(noteId)]: read errors are swallowed. *)
Definition loadNote (noteId : string) (st : State) : M State :=
  try_catch
    (let* storedNotes := AsyncStorage.getItem in
     match storedNotes with
     | Some s =>
         if truthy s then
           let* notes := JSON_parse_M s in
           match find (fun n => (Note.id n =? noteId)%string) notes with
           | Some note =>
               ret (setSelectedCategory (Note.categoryId note)
                      (setContent (Note.content note)
                         (setTitle (Note.title note) st)))
           | None => ret st
           end
         else ret st
     | None => ret st
     end)
    (ret st).

(** The mount effect. [loadNote] suspends at its first [await], so the
    synchronous [setSelectedCategory(route.params.categoryId)] takes effect
    before the setters of [loadNote]. *)
Definition mount (p : RouteParams) (st : State) : M State :=
  let st1 :=
    match categoryId p with
    | Some c => if truthy c then setSelectedCategory c st else st
    | None => st
    end in
  match noteId p with
  | Some i => if truthy i then loadNote i st1 else ret st1
  | None => ret st1
  end.

(** The object literal [newNote] of [saveNote]; its fields are evaluated in
    source order, so the clock is read for [id] (a new note only), then for
    [createdAt] (when no original value is found), then for [updatedAt]. *)
Definition newNote (p : RouteParams) (st : State) (notes : list Note.t)
  : M Note.t :=
  let* id :=
    (if truthy_opt (noteId p) then ret (or_else (noteId p) "")
     else let* t := Date_now in ret (Number_toString t)) in
  let* createdAt :=
    (if truthy_opt (noteId p) then
       match find (fun n => (Note.id n =? or_else (noteId p) "")%string) notes with
       | Some n =>
           if truthy (Note.createdAt n) then ret (Note.createdAt n)
           else new_Date_toISOString
       | None => new_Date_toISOString
       end
     else new_Date_toISOString) in
  let* updatedAt := new_Date_toISOString in
  ret (Note.mk id (title st) (trim (content st)) (selectedCategory st)
         createdAt updatedAt).

(** [saveNote]: the component state afterwards and the UI effect, if any. *)
Definition saveNote (p : RouteParams) (st : State)
  : M (State * option UiEffect) :=
  let (valid, st1) := validateContent st in
  if negb valid then ret (st1, None)
  else
    try_catch
      (let* storedNotes := AsyncStorage.getItem in
       let* notes :=
         match storedNotes with
         | Some s => if truthy s then JSON_parse_M s else ret []
         | None => ret []
         end in
       let* n := newNote p st notes in
       let notes' :=
         if truthy_opt (noteId p) then
           map (fun note =>
                  if (Note.id note =? or_else (noteId p) "")%string
                  then n else note) notes
         else notes ++ [n] in
       let* _ := AsyncStorage.setItem (JSON_stringify notes') in
       ret (st1, Some (Navigate "Home")))
      (ret (st1, Some (Alert "Error" "Failed to save note. Please try again."))).

End WithPlatform.

(** The array [saveNote] writes, from the array [notes] it read and the note
    [n] it built (the [if (route.params?.noteId) ... else ...] statement). *)
Definition written (p : RouteParams) (n : Note.t) (notes : list Note.t)
  : list Note.t :=
  if truthy_opt (noteId p) then
    map (fun note =>
           if (Note.id note =? or_else (noteId p) "")%string
           then n else note) notes
  else notes ++ [n].

End NoteScreen.

(** ** [Array.prototype.sort] *)

(** The value a comparator result stands for: [NaN] counts as [+0]. *)
Definition SortCompare {A} (cmp : A -> A -> option Z) (x y : A) : Z :=
  match cmp x y with
  | Some v => v
  | None => 0%Z
  end.

(** Insert [x], which preceded every element of [l] in the input. *)
Fixpoint sort_insert {A} (cmp : A -> A -> option Z) (x : A) (l : list A)
  : list A :=
  match l with
  | [] => [x]
  | y :: l' =>
      if (SortCompare cmp x y <=? 0)%Z then x :: l
      else y :: sort_insert cmp x l'
  end.

(** [l.sort(cmp)]. The sort is stable; on a consistent comparator all stable
    sorts agree, and this one is insertion sort. *)
Fixpoint Array_sort {A} (cmp : A -> A -> option Z) (l : list A) : list A :=
  match l with
  | [] => []
  | x :: l' => sort_insert cmp x (Array_sort cmp l')
  end.

(** ** HomeScreen.tsx *)

Module HomeScreen.
Section WithPlatform.
Context {P : Platform}.

(** [loadNotes]: the new value of the [notes] state. *)
Definition loadNotes : M (list Note.t) :=
  try_catch
    (let* storedNotes := AsyncStorage.getItem in
     match storedNotes with
     | Some s => if truthy s then JSON_parse_M s else ret []
     | None => ret []
     end)
    (ret []).

(** The ['Delete'] button of the confirmation of [deleteNote(noteId)], run
    with the [notes] state of the screen: the new [notes] state and the
    alert, if any. *)
Definition deleteNote (notes : list Note.t) (noteId : string)
  : M (list Note.t * option UiEffect) :=
  try_catch
    (let updatedNotes :=
       List.filter (fun note => negb (Note.id note =? noteId)%string) notes in
     let* _ := AsyncStorage.setItem (JSON_stringify updatedNotes) in
     ret (updatedNotes, None))
    (ret (notes, Some (Alert "Error" "Failed to delete note"))).

(** The comparator of [getLatestNotesForCategory]:
    [new Date(b.createdAt).getTime() - new Date(a.createdAt).getTime()]. *)
Definition byCreatedAtDesc (a b : Note.t) : option Z :=
  match Date_getTime (Note.createdAt b), Date_getTime (Note.createdAt a) with
  | Some tb, Some ta => Some (tb - ta)%Z
  | _, _ => None
  end.

(** [getLatestNotesForCategory(categoryId)] on the [notes] state. *)
Definition getLatestNotesForCategory (notes : list Note.t)
  (categoryId : string) : list Note.t :=
  take 3
    (Array_sort byCreatedAtDesc
       (List.filter (fun note => (Note.categoryId note =? categoryId)%string)
          notes)).

(** The text of a row:
    [note.content.length > 20 ? `${note.content.slice(0, 20)}...`
     : note.content]. *)
Definition rowText (note : Note.t) : string :=
  if (20 <? String.length (Note.content note))%nat
  then slice0 20 (Note.content note) +:+ "..."
  else Note.content note.

(** One row of a category section: its React [key], the [noteId] its press
    and its delete action carry, and its text. *)
Record Row : Type := mkRow {
  key : string;
  rowNoteId : string;
  text : string
}.

(** What [renderCategorySection] puts under the header of a category:
    the rows, and whether ['No notes in this category'] is shown. *)
Definition renderCategorySection (notes : list Note.t)
  (category : Category.t) : list Row * bool :=
  let categoryNotes := getLatestNotesForCategory notes (Category.id category) in
  (map (fun note => mkRow (Note.id note) (Note.id note) (rowText note))
     categoryNotes,
   (length categoryNotes =? 0)%nat).

(** The sections of the scroll view: [CATEGORIES.map(renderCategorySection)]. *)
Definition renderSections (notes : list Note.t) : list (list Row * bool) :=
  map (renderCategorySection notes) CATEGORIES.

End WithPlatform.

Section WithValues.
Context {P : Platform} {V : JSONValues}.

(** [loadNotes] without the type assertion: the value handed to [setNotes],
    whatever [JSON.parse] returned. *)
Definition loadNotes_value : M JSON :=
  try_catch
    (let* storedNotes := AsyncStorage.getItem in
     match storedNotes with
     | Some s => if truthy s then JSON_parse_value_M s else ret (JArray [])
     | None => ret (JArray [])
     end)
    (ret (JArray [])).

End WithValues.

End HomeScreen.

(** ** SummaryScreen.tsx *)

Module SummaryScreen.
Section WithPlatform.
Context {P : Platform}.

(** The [reduce] over [CATEGORIES] that builds [counts]. *)
Definition countNotes (loadedNotes : list Note.t) : gmap string nat :=
  foldl
    (fun acc category =>
       <[Category.id category :=
           length
             (List.filter
                (fun note => (Note.categoryId note =? Category.id category)%string)
                loadedNotes)]> acc)
    ∅ CATEGORIES.

(** [loadNotes]: the new values of the [notes] and [categoryCounts] states. *)
Definition loadNotes : M (list Note.t * gmap string nat) :=
  try_catch
    (let* storedNotes := AsyncStorage.getItem in
     match storedNotes with
     | Some s =>
         if truthy s then
           let* loadedNotes := JSON_parse_M s in
           ret (loadedNotes, countNotes loadedNotes)
         else ret ([], ∅)
     | None => ret ([], ∅)
     end)
    (ret ([], ∅)).

(** What a category card shows: [categoryCounts[category.id] || 0]. *)
Definition shownCount (categoryCounts : gmap string nat)
  (category : Category.t) : nat :=
  match categoryCounts !! Category.id category with
  | Some n => n
  | None => 0
  end.

End WithPlatform.

Section WithValues.
Context {P : Platform} {V : JSONValues}.

(** [elements.filter(note => note.categoryId === categoryId).length], the
    callback run on the elements in order; [None] when it throws. *)
Fixpoint Array_filter_length (elements : list JSON) (categoryId : string)
  : option nat :=
  match elements with
  | [] => Some 0%nat
  | note :: rest =>
      match get_property note "categoryId" with
      | None => None
      | Some v =>
          match Array_filter_length rest categoryId with
          | Some k =>
              Some (if strict_equals_string v categoryId then S k else k)
          | None => None
          end
      end
  end.

(** [loadedNotes.filter(...).length] on a value: a [TypeError] is thrown
    when [loadedNotes] is [null], when it has no [filter] method, and when
    the callback throws. *)
Definition filter_length (loadedNotes : JSON) (categoryId : string)
  : M nat :=
  match loadedNotes with
  | JArray elements =>
      match Array_filter_length elements categoryId with
      | Some k => ret k
      | None => throw
      end
  | _ => throw
  end.

(** The [reduce] over [CATEGORIES] that builds [counts], on a value. *)
Definition countNotes_value (loadedNotes : JSON) : M (gmap string nat) :=
  foldl
    (fun (acc : M (gmap string nat)) category =>
       let* counts := acc in
       let* k := filter_length loadedNotes (Category.id category) in
       ret (<[Category.id category := k]> counts))
    (ret ∅) CATEGORIES.

(** [loadNotes] without the type assertion: the values of the [notes] and
    [categoryCounts] states when it ends. When the [reduce] throws after
    [setNotes(loadedNotes)], the handler sets both states again. *)
Definition loadNotes_value : M (JSON * gmap string nat) :=
  try_catch
    (let* storedNotes := AsyncStorage.getItem in
     match storedNotes with
     | Some s =>
         if truthy s then
           let* loadedNotes := JSON_parse_value_M s in
           let* counts := countNotes_value loadedNotes in
           ret (loadedNotes, counts)
         else ret (JArray [], ∅)
     | None => ret (JArray [], ∅)
     end)
    (ret (JArray [], ∅)).

End WithValues.

End SummaryScreen.

(** ** SettingsScreen.tsx *)

Module SettingsScreen.

(** The ['Delete'] button of the confirmation of [clearAllNotes]. *)
Definition clearAllNotes : M UiEffect :=
  try_catch
    (let* _ := AsyncStorage.removeItem in
     ret (ClearedPopupThenNavigate "Home"))
    (ret (Alert "Error" "Failed to delete notes")).

End SettingsScreen.

(** ** The application as a transition system *)

Module App.

(** What the repository operations read and write: the world, and the
    [notes] state of the mounted Home screen (which [deleteNote] filters). *)
Record t : Type := mk {
  world : World;
  homeNotes : list Note.t
}.

(** What the user can do on the Note screen before pressing Save. *)
Inductive NoteEvent : Type :=
| ContentChange (text : string)
| ToggleDropdown
| PickCategory (index : nat).

(** What happens to the application.
    - [Focus]: the Home screen gains focus and runs [loadNotes].
    - [Session p evs]: the Note screen is opened with the route parameters
      [p], the user produces the events [evs], and presses Save.
    - [Delete noteId]: the user confirms the deletion of a note on Home.
    - [Clear]: the user confirms ['Delete All Notes'] on Settings.
    - [Env r wr]: the storage starts or stops serving reads and writes. *)
Inductive Action : Type :=
| Focus
| Session (p : NoteScreen.RouteParams) (evs : list NoteEvent)
| Delete (noteId : string)
| Clear
| Env (r wr : bool).

(** One event on the Note screen. The rows of the dropdown are rendered only
    while it is open, one per element of [CATEGORIES]. *)

Definition handle (st : NoteScreen.State) (ev : NoteEvent) : NoteScreen.State :=
  match ev with
  | ContentChange text => NoteScreen.handleContentChange text st
  | ToggleDropdown => NoteScreen.toggleDropdown st
  | PickCategory i =>
      if NoteScreen.dropdownOpen st then
        match CATEGORIES !! i with
        | Some c => NoteScreen.pickCategory c st
        | None => st
        end
      else st
  end.

Section WithPlatform.
Context {P : Platform}.

(** The Note screen is opened with [p], the user acts on it, and presses
    Save. *)
Definition session (p : NoteScreen.RouteParams) (evs : list NoteEvent)
  : M (NoteScreen.State * option UiEffect) :=
  let* st0 := NoteScreen.mount p NoteScreen.initial in
  NoteScreen.saveNote p (foldl handle st0 evs).

(** The state after an action. *)
Definition perform (act : Action) (a : t) : t :=
  match act with
  | Focus =>
      match HomeScreen.loadNotes (world a) with
      | (Ok ns, w) => mk w ns
      | (Threw, w) => mk w (homeNotes a)
      end
  | Session p evs => mk (snd (session p evs (world a))) (homeNotes a)
  | Delete noteId =>
      match HomeScreen.deleteNote (homeNotes a) noteId (world a) with
      | (Ok (ns, _), w) => mk w ns
      | (Threw, w) => mk w (homeNotes a)
      end
  | Clear => mk (snd (SettingsScreen.clearAllNotes (world a))) (homeNotes a)
  | Env r wr => mk (set_io r wr (world a)) (homeNotes a)
  end.

(** Whether the Note screen may be opened with given route parameters is a
    parameter of reachability. *)
Definition permitted (allowed : NoteScreen.RouteParams -> Prop)
  (act : Action) : Prop :=
  match act with
  | Session p _ => allowed p
  | _ => True
  end.

(** A fresh installation: nothing stored, the Home screen shows no notes. *)
Definition fresh (clock : nat -> Z) (r wr : bool) : t :=
  mk (mkWorld None r wr clock 0) [].

Inductive reachable (allowed : NoteScreen.RouteParams -> Prop) : t -> Prop :=
| reach_fresh clock r wr : reachable allowed (fresh clock r wr)
| reach_step a act :
    reachable allowed a -> permitted allowed act ->
    reachable allowed (perform act a).

(** Route parameters whose [categoryId], if any, is empty or one of the fixed
    ids. The application itself navigates with [navigate('Note', {})] and
    [navigate('Note', { noteId: note.id })], which carry none. *)
Definition known_category (p : NoteScreen.RouteParams) : Prop :=
  match NoteScreen.categoryId p with
  | Some c => c = "" \/ c ∈ category_ids
  | None => True
  end.

(** Any route parameters of the declared type [{ noteId?: string;
    categoryId?: string }]. *)
Definition any_navigation (p : NoteScreen.RouteParams) : Prop := True.

End WithPlatform.
End App.

(** ** A reference platform

    An executable instance of [Platform]: a prefix-free quoting of strings
    for the JSON text, and decimal milliseconds for the date text. *)

Module Reference.

(** Every character is preceded by ['+']; ['.'] ends the string. *)
Fixpoint quote (s : string) : string :=
  match s with
  | EmptyString => "."
  | String c r => String "+" (String c (quote r))
  end.

(** Read one quoted string off the front of [s]. *)
Fixpoint unquote (s : string) : option (string * string) :=
  match s with
  | EmptyString => None
  | String m r =>
      if Ascii.eqb m "." then Some (EmptyString, r)
      else if Ascii.eqb m "+" then
        match r with
        | EmptyString => None
        | String c r' =>
            match unquote r' with
            | Some (x, rest) => Some (String c x, rest)
            | None => None
            end
        end
      else None
  end.

Definition encode_note (n : Note.t) : string :=
  quote (Note.id n) +:+ quote (Note.title n) +:+ quote (Note.content n)
  +:+ quote (Note.categoryId n) +:+ quote (Note.createdAt n)
  +:+ quote (Note.updatedAt n).

Definition decode_note (s : string) : option (Note.t * string) :=
  match unquote s with
  | Some (i, s1) =>
    match unquote s1 with
    | Some (t, s2) =>
      match unquote s2 with
      | Some (c, s3) =>
        match unquote s3 with
        | Some (g, s4) =>
          match unquote s4 with
          | Some (cr, s5) =>
            match unquote s5 with
            | Some (u, s6) => Some (Note.mk i t c g cr u, s6)
            | None => None
            end
          | None => None
          end
        | None => None
        end
      | None => None
      end
    | None => None
    end
  | None => None
  end.

(** Each note is announced by ['n']; [']'] closes the array. *)
Fixpoint encode_notes (ns : list Note.t) : string :=
  match ns with
  | [] => "]"
  | n :: ns' => String "n" (encode_note n +:+ encode_notes ns')
  end.

Fixpoint decode_notes (fuel : nat) (s : string) : option (list Note.t) :=
  match fuel with
  | O => None
  | S fuel' =>
      match s with
      | EmptyString => None
      | String m r =>
          if Ascii.eqb m "]" then
            match r with
            | EmptyString => Some []
            | String _ _ => None
            end
          else if Ascii.eqb m "n" then
            match decode_note r with
            | Some (n, rest) =>
                match decode_notes fuel' rest with
                | Some ns => Some (n :: ns)
                | None => None
                end
            | None => None
            end
          else None
      end
  end.

Definition stringify (ns : list Note.t) : string := encode_notes ns.
Definition parse (s : string) : option (list Note.t) :=
  decode_notes (String.length s) s.

Definition isoOfTime (t : Z) : string := Number_toString t.
Definition timeOfIso (s : string) : option Z :=
  match NilZero.int_of_string s with
  | Some d => Some (Z.of_int d)
  | None => None
  end.

(** [JSON.parse] on values: the texts [null], [{}] and [[null]], and the
    texts of notes. *)
Definition parse_value (s : string) : option JSON :=
  if (s =? "null")%string then Some JNull
  else if (s =? "{}")%string then Some (JObject [])
  else if (s =? "[null]")%string then Some (JArray [JNull])
  else
    match parse s with
    | Some ns => Some (of_notes ns)
    | None => None
    end.

End Reference.

(** * Vocabulary of the properties *)

Section Vocabulary.
Context {P : Platform}.

(** The stored value is absent, or is the text of [ns]. *)
Definition stored_as (w : World) (ns : list Note.t) : Prop :=
  (item w = None /\ ns = []) \/ item w = Some (JSON_stringify ns).

(** A property [I] of collections, relative to the clock and to the number
    of readings taken so far, holds of what is stored and of what the Home
    screen shows. *)
Definition holds_in (I : (nat -> Z) -> nat -> list Note.t -> Prop)
  (a : App.t) : Prop :=
  exists ns,
    stored_as (App.world a) ns /\
    I (time (App.world a)) (reads (App.world a)) ns /\
    I (time (App.world a)) (reads (App.world a)) (App.homeNotes a).


(** The category of a note is one of the fixed ids. *)
Definition category_known (n : Note.t) : Prop :=
  Note.categoryId n ∈ category_ids.

(** No two readings of the clock are equal (as with a clock that has
    advanced at every reading). *)
Definition distinct_readings (t : nat -> Z) : Prop :=
  forall i j, t i = t j -> i = j.

(** The ids are distinct, and each is the decimal text of one of the first
    [k] readings of the clock [t]. *)
Definition ids_from_clock (t : nat -> Z) (k : nat) (ns : list Note.t) : Prop :=
  NoDup (map Note.id ns) /\
  forall x, x ∈ map Note.id ns ->
    exists j, (j < k)%nat /\ x = Number_toString (t j).

(** [createdAt] is a date text the platform can read. *)
Definition dated (n : Note.t) : Prop :=
  is_Some (Date_getTime (Note.createdAt n)).

(** The time a note was created, as the comparator of the Home screen reads
    it ([0] stands in for an invalid date). *)
Definition createdTime (n : Note.t) : Z :=
  match Date_getTime (Note.createdAt n) with
  | Some t => t
  | None => 0%Z
  end.

(** A collection as the data model has it: distinct ids, none of them
    empty, and every [createdAt] a date. *)
Definition well_formed (ns : list Note.t) : Prop :=
  NoDup (map Note.id ns) /\
  Forall (fun n => Note.id n <> "" /\ dated n) ns.

(** The number of notes of a category. *)
Definition count_in (cid : string) (ns : list Note.t) : nat :=
  length (List.filter (fun n => (Note.categoryId n =? cid)%string) ns).

End Vocabulary.

Section SortVocabulary.
Context {A : Type}.
Variable cmp : A -> A -> option Z.
Variable key : A -> Z.

(** On [l] the comparator is the difference of keys, second minus first. *)
Definition compares_keys (l : list A) : Prop :=
  forall x y, In x l -> In y l -> SortCompare cmp x y = (key y - key x)%Z.

(** [a] may come before [b] in descending order of key. *)
Definition key_desc (a b : A) : Prop := (key b <= key a)%Z.

(** The elements of key [k], in order. *)
Definition with_key (k : Z) (l : list A) : list A :=
  List.filter (fun a => (key a =? k)%Z) l.

End SortVocabulary.

(** * Runs of the application *)

Section RunVocabulary.
Context {P : Platform}.

(** The state after a sequence of actions. *)
Definition run (acts : list App.Action) (a : App.t) : App.t :=
  foldl (fun a act => App.perform act a) a acts.

(** The index of the clock reading that [act] takes with [Date.now()] for
    the id of a new note, when [act] is a save without [noteId] that stores
    its note (it ends by navigating Home). *)
Definition id_reading (act : App.Action) (a : App.t) : option nat :=
  match act with
  | App.Session p evs =>
      if truthy_opt (NoteScreen.noteId p) then None
      else
        match App.session p evs (App.world a) with
        | (Ok (_, Some (Navigate _)), _) => Some (reads (App.world a))
        | _ => None
        end
  | _ => None
  end.

(** The readings taken for ids along a run, as indices into the clock. *)
Fixpoint id_readings (acts : list App.Action) (a : App.t) : list nat :=
  match acts with
  | [] => []
  | act :: rest =>
      match id_reading act a with
      | Some k => k :: id_readings rest (App.perform act a)
      | None => id_readings rest (App.perform act a)
      end
  end.

(** The ids of [l] are distinct, and each is the decimal text of the clock
    at one of the readings [seen]. *)
Definition ids_read (clock : nat -> Z) (seen : list nat) (l : list Note.t)
  : Prop :=
  NoDup (map Note.id l) /\
  forall x, x ∈ map Note.id l ->
    exists k, k ∈ seen /\ x = Number_toString (clock k).

(** [ids_read] holds of what is stored and of what the Home screen shows. *)
Definition ids_read_in (clock : nat -> Z) (seen : list nat) (a : App.t)
  : Prop :=
  exists ns,
    stored_as (App.world a) ns /\
    ids_read clock seen ns /\
    ids_read clock seen (App.homeNotes a).

End RunVocabulary.

(** * Vocabulary of the further properties *)

Section FurtherVocabulary.
Context {P : Platform}.

(** The content of a note has at most 200 characters. *)
Definition content_bounded (n : Note.t) : Prop :=
  (String.length (Note.content n) <= 200)%nat.

(** The keys of all the rows of the Home screen, section after section. *)
Definition rowKeys (notes : list Note.t) : list string :=
  concat (map (fun s => map HomeScreen.key (fst s))
            (HomeScreen.renderSections notes)).

(** The category of a note is one of the fixed ids, as a test. *)
Definition known_categoryb (n : Note.t) : bool :=
  existsb (fun cid => (Note.categoryId n =? cid)%string) category_ids.

(** [createdAt] and [updatedAt] are the texts of two of the first [k]
    readings of the clock [t], the one of [createdAt] not later in the
    sequence. *)
Definition stamped (t : nat -> Z) (k : nat) (n : Note.t) : Prop :=
  exists j j', (j <= j')%nat /\ (j' < k)%nat /\
    Note.createdAt n = toISOString (t j) /\
    Note.updatedAt n = toISOString (t j').

(** The clock never goes back. *)
Definition monotone (t : nat -> Z) : Prop :=
  forall i j, (i <= j)%nat -> (t i <= t j)%Z.

(** The clock has advanced at every reading. *)
Definition advancing (t : nat -> Z) : Prop :=
  forall i j, (i < j)%nat -> (t i < t j)%Z.

End FurtherVocabulary.

(** * Concrete inputs *)

Module Runs.
Import NoteScreen.

(** A clock that advances by one millisecond at every reading. *)
Definition ticking (k : nat) : Z := (1000 + Z.of_nat k)%Z.

(** A clock that was set back: it reads 1000, 1001, 1002 and again 1000,
    1001, 1002, ... *)
Definition set_back (k : nat) : Z := (1000 + Z.of_nat (k mod 3))%Z.

(** An empty, working store. *)
Definition empty_store (clock : nat -> Z) : World :=
  mkWorld None true true clock 0.

(** [navigate('Note', {})] *)
Definition no_params : RouteParams := mkParams None None.

(** The draft typed by the user. *)
Definition draft (text : string) : State :=
  handleContentChange text initial.

(** The note a first save of ["Buy milk"] produces on the [ticking] clock
    (dates in the text of the reference platform). *)
Definition milk : Note.t :=
  Note.mk "1000" "" "Buy milk" "work-study" "1001" "1002".

(** A store that holds [milk]. *)
Definition milk_store : World :=
  mkWorld (Some (Reference.stringify [milk])) true true ticking 3.

(** A note of the category ['life'] created at [created]. *)
Definition life (i created : string) : Note.t :=
  Note.mk i "" "x" "life" created created.

Definition three_life : list Note.t :=
  [life "1" "10"; life "2" "30"; life "3" "20"].

(** 201 characters. *)
Definition too_long : string :=
  string_of_list_ascii (repeat "a"%char 201).





(** A clock of millisecond resolution read faster than it moves: it reads
    1000, 1000, 1000, 1001, 1001, 1001, ... *)
Definition millisecond (k : nat) : Z := (1000 + Z.of_nat (k / 3))%Z.

(** Two saves of new notes. *)
Definition two_sessions : list App.Action :=
  [App.Session no_params [App.ContentChange "a"];
   App.Session no_params [App.ContentChange "b"]].

Section WithPlatform.
Context {P : Platform}.

(** The state after two new notes were saved on the clock [clock]. *)
Definition two_saves (clock : nat -> Z) : App.t :=
  App.perform (App.Session no_params [App.ContentChange "b"])
    (App.perform (App.Session no_params [App.ContentChange "a"])
       (App.fresh clock true true)).

(** The state after one save from a Note screen opened with the route
    parameter [categoryId]. *)
Definition save_in (categoryId : option string) : App.t :=
  App.perform
    (App.Session (mkParams None categoryId) [App.ContentChange "x"])
    (App.fresh ticking true true).

End WithPlatform.
End Runs.


(** * Concrete inputs of the further properties *)

Module MoreRuns.
Import NoteScreen Runs.

(** A second note, created after [milk]. *)
Definition eggs : Note.t :=
  Note.mk "1003" "" "Eggs" "life" "1004" "1005".

(** A store whose text is not the text of a collection. *)
Definition garbled_store : World :=
  mkWorld (Some "not json") true true ticking 0.

(** A store that holds [milk] and rejects writes. *)
Definition read_only_store : World :=
  mkWorld (Some (Reference.stringify [milk])) true false ticking 3.

(** The note a first save of ["x"] produces on the [ticking] clock. *)
Definition first_x : Note.t :=
  Note.mk "1000" "" "x" "work-study" "1001" "1002".

End MoreRuns.

(** * Properties *)

(** ** Strings *)

Lemma truthy_true (s : string) : truthy s = true <-> s <> "".
Proof.
  unfold truthy. destruct (String.eqb_spec s ""); simpl; split; congruence.
Qed.

Lemma truthy_false (s : string) : truthy s = false <-> s = "".
Proof.
  unfold truthy. destruct (String.eqb_spec s ""); simpl; split; congruence.
Qed.







Lemma length_pos_nonempty (s : string) :
  (1 <= String.length s)%nat <-> s <> "".
Proof. destruct s; simpl; split; intros; try congruence; lia. Qed.

(** Decimal printing is injective. *)
Lemma Number_toString_inj (m n : Z) :
  Number_toString m = Number_toString n -> m = n.
Proof.
  unfold Number_toString. intros H.
  apply DecimalZ.to_int_inj.
  assert (Hok : forall z, NilZero.int_of_string
                  (NilZero.string_of_int (Z.to_int z)) = Some (Z.to_int z)).
  { intros z. apply NilZero.isi; destruct z; simpl; try discriminate;
      intros [= E]; now apply DecimalPos.Unsigned.to_uint_nonnil in E. }
  pose proof (Hok m) as Hm. rewrite H, Hok in Hm. congruence.
Qed.

Lemma Number_toString_nonempty (n : Z) : Number_toString n <> "".
Proof.
  unfold Number_toString. intros H.
  assert (Hok : NilZero.int_of_string
                  (NilZero.string_of_int (Z.to_int n)) = Some (Z.to_int n)).
  { apply NilZero.isi; destruct n; simpl; try discriminate;
      intros [= E]; now apply DecimalPos.Unsigned.to_uint_nonnil in E. }
  rewrite H in Hok. discriminate.
Qed.

(** ** The reference platform satisfies the interface *)

Module ReferenceFacts.
Import Reference.

Lemma append_cons (x : ascii) (a b : string) :
  String x a +:+ b = String x (a +:+ b).
Proof. reflexivity. Qed.

Lemma append_assoc (a b c : string) : (a +:+ b) +:+ c = a +:+ (b +:+ c).
Proof.
  induction a as [|x a IH]; [reflexivity|].
  now rewrite !append_cons, IH.
Qed.

Lemma unquote_quote (s rest : string) :
  unquote (quote s +:+ rest) = Some (s, rest).
Proof.
  induction s as [|c r IH]; [reflexivity|].
  simpl quote. rewrite !append_cons. simpl. now rewrite IH.
Qed.

Lemma decode_encode_note (n : Note.t) (rest : string) :
  decode_note (encode_note n +:+ rest) = Some (n, rest).
Proof.
  destruct n as [i t c g cr u]. unfold encode_note, decode_note. simpl.
  rewrite !append_assoc.
  now rewrite !unquote_quote.
Qed.

Lemma decode_encode_notes (ns : list Note.t) (fuel : nat) :
  (length ns < fuel)%nat -> decode_notes fuel (encode_notes ns) = Some ns.
Proof.
  revert fuel. induction ns as [|n ns IH]; intros [|fuel] H; simpl in *;
    try lia; [reflexivity|].
  rewrite decode_encode_note. now rewrite IH by lia.
Qed.

Lemma length_append (a b : string) :
  String.length (a +:+ b) = (String.length a + String.length b)%nat.
Proof.
  induction a as [|x a IH]; [reflexivity|].
  rewrite append_cons. simpl. now rewrite IH.
Qed.

Lemma length_encode_notes (ns : list Note.t) :
  (length ns < String.length (encode_notes ns))%nat.
Proof.
  induction ns as [|n ns IH]; simpl; [lia|].
  rewrite length_append. lia.
Qed.

Lemma parse_stringify (ns : list Note.t) : parse (stringify ns) = Some ns.
Proof.
  unfold parse, stringify. apply decode_encode_notes, length_encode_notes.
Qed.

Lemma timeOfIso_isoOfTime (t : Z) : timeOfIso (isoOfTime t) = Some t.
Proof.
  unfold timeOfIso, isoOfTime, Number_toString.
  rewrite NilZero.isi.
  - now rewrite DecimalZ.of_to.
  - destruct t; simpl; try discriminate.
    intros [= E]. now apply DecimalPos.Unsigned.to_uint_nonnil in E.
  - destruct t; simpl; try discriminate.
    intros [= E]. now apply DecimalPos.Unsigned.to_uint_nonnil in E.
Qed.

End ReferenceFacts.

#[export] Instance reference_platform : Platform := {|
  JSON_stringify := Reference.stringify;
  JSON_parse := Reference.parse;
  toISOString := Reference.isoOfTime;
  Date_getTime := Reference.timeOfIso;
  JSON_parse_stringify := ReferenceFacts.parse_stringify;
  JSON_parse_empty := eq_refl;
  getTime_toISOString := ReferenceFacts.timeOfIso_isoOfTime;
  getTime_empty := eq_refl
|}.

(** ** JSON values on the reference platform *)

Lemma of_note_inj (n m : Note.t) : of_note n = of_note m -> n = m.
Proof.
  destruct n, m. unfold of_note. simpl. intros [= -> -> -> -> -> ->].
  reflexivity.
Qed.

Lemma of_notes_inj (ns ms : list Note.t) : of_notes ns = of_notes ms -> ns = ms.
Proof.
  unfold of_notes. intros [= H]. revert ms H.
  induction ns as [|n ns IH]; intros [|m ms] H; cbn [map] in H;
    try discriminate; [reflexivity|].
  assert (Hn : of_note n = of_note m) by congruence.
  assert (Hs : map of_note ns = map of_note ms) by congruence.
  f_equal; [now apply of_note_inj | now apply IH].
Qed.

(** No collection of notes is [null]. *)
Lemma of_notes_not_null (ns : list Note.t) : JNull <> of_notes ns.
Proof. discriminate. Qed.

Module ReferenceValueFacts.
Import Reference.

Lemma stringify_head (ns : list Note.t) :
  exists r,
    stringify ns = String "]" r \/
    stringify ns = String "n" (String "+" r) \/
    stringify ns = String "n" (String "." r).
Proof.
  destruct ns as [|n ns]; [exists ""; now left|].
  unfold stringify, encode_notes; fold encode_notes. unfold encode_note.
  destruct (Note.id n) as [|c i].
  - eexists. right. right. reflexivity.
  - eexists. right. left. reflexivity.
Qed.

Lemma parse_value_stringify (ns : list Note.t) :
  parse_value (stringify ns) = Some (of_notes ns).
Proof.
  unfold parse_value.
  destruct (stringify_head ns) as (r & [E | [E | E]]);
    rewrite E; simpl; rewrite <- E;
    now rewrite ReferenceFacts.parse_stringify.
Qed.

Lemma parse_value_notes (s : string) (ns : list Note.t) :
  parse_value s = Some (of_notes ns) -> parse s = Some ns.
Proof.
  unfold parse_value.
  destruct (s =? "null")%string; [discriminate|].
  destruct (s =? "{}")%string; [discriminate|].
  destruct (s =? "[null]")%string.
  { destruct ns as [|x [|y ns]]; discriminate. }
  destruct (parse s) as [ms|]; [|discriminate].
  intros H. f_equal. apply of_notes_inj. congruence.
Qed.

Lemma parse_value_throws (s : string) :
  parse_value s = None -> parse s = None.
Proof.
  unfold parse_value.
  destruct (s =? "null")%string; [discriminate|].
  destruct (s =? "{}")%string; [discriminate|].
  destruct (s =? "[null]")%string; [discriminate|].
  now destruct (parse s).
Qed.

End ReferenceValueFacts.

#[export] Instance reference_values : JSONValues := {|
  JSON_parse_value := Reference.parse_value;
  parse_value_stringify := ReferenceValueFacts.parse_value_stringify;
  parse_value_notes := ReferenceValueFacts.parse_value_notes;
  parse_value_throws := ReferenceValueFacts.parse_value_throws
|}.

(** ** Reading the store *)

Section Store.
Context {P : Platform}.

Lemma JSON_stringify_truthy (ns : list Note.t) :
  truthy (JSON_stringify ns) = true.
Proof.
  apply truthy_true. intros E.
  pose proof (JSON_parse_stringify ns) as H.
  rewrite E, JSON_parse_empty in H. discriminate.
Qed.

Lemma decode_stringify (ns : list Note.t) :
  decode (Some (JSON_stringify ns)) = Some ns.
Proof.
  unfold decode. now rewrite JSON_stringify_truthy, JSON_parse_stringify.
Qed.

(** The expression [storedNotes ? JSON.parse(storedNotes) : []], shared by the
    readers, runs to what [decode] says. *)
Lemma parse_stored_run (storedNotes : option string) (w : World) :
  match storedNotes with
  | Some s => if truthy s then JSON_parse_M s else ret []
  | None => ret []
  end w =
  match decode storedNotes with
  | Some ns => (Ok ns, w)
  | None => (Threw, w)
  end.
Proof.
  unfold decode, JSON_parse_M, ret, throw.
  destruct storedNotes as [s|]; [|reflexivity].
  destruct (truthy s); [|reflexivity].
  destruct (JSON_parse s); reflexivity.
Qed.

(** [loadNotes] of the Home screen, in closed form. *)
Lemma HomeScreen_loadNotes_run (w : World) :
  HomeScreen.loadNotes w =
  (Ok (if reads_ok w then
         match persisted w with Some ns => ns | None => [] end
       else []), w).
Proof.
  unfold HomeScreen.loadNotes, try_catch, bind, AsyncStorage.getItem, persisted.
  destruct (reads_ok w); [|reflexivity].
  rewrite parse_stored_run. destruct (decode (item w)); reflexivity.
Qed.

Lemma SummaryScreen_loadNotes_run (w : World) :
  SummaryScreen.loadNotes w =
  (Ok (if reads_ok w then
         match item w with
         | Some s =>
             if truthy s then
               match JSON_parse s with
               | Some ns => (ns, SummaryScreen.countNotes ns)
               | None => ([], ∅)
               end
             else ([], ∅)
         | None => ([], ∅)
         end
       else ([], ∅)), w).
Proof.
  unfold SummaryScreen.loadNotes, try_catch, bind, AsyncStorage.getItem,
    JSON_parse_M, ret, throw.
  destruct (reads_ok w); [|reflexivity].
  destruct (item w) as [s|]; [|reflexivity].
  destruct (truthy s); [|reflexivity].
  destruct (JSON_parse s); reflexivity.
Qed.

End Store.

(** ** [saveNote] in closed form *)

Section Save.
Context {P : Platform}.
Import NoteScreen.

Lemma validateContent_ok (st : State) :
  truthy (trim (content st)) = true ->
  validateContent st = (true, setError None st).
Proof.
  intros H. unfold validateContent. rewrite H. simpl.
  apply truthy_true, length_pos_nonempty in H.
  unfold MIN_CONTENT_LENGTH.
  destruct (Nat.ltb_spec (String.length (trim (content st))) 1); [lia|].
  reflexivity.
Qed.

Lemma validateContent_rejects (st : State) :
  truthy (trim (content st)) = false ->
  validateContent st = (false, setError (Some "Note content is required") st).
Proof. intros H. unfold validateContent. now rewrite H. Qed.

(** A save that passes validation, reads and writes the store: it writes
    [written p n prior] for the note [n] that [newNote] builds. *)
Lemma saveNote_run (p : RouteParams) (st : State) (w : World)
  (prior : list Note.t) :
  truthy (trim (content st)) = true ->
  reads_ok w = true -> writes_ok w = true ->
  persisted w = Some prior ->
  exists n w1,
    newNote p st prior w = (Ok n, w1) /\
    item w1 = item w /\ reads_ok w1 = true /\ writes_ok w1 = true /\
    time w1 = time w /\
    saveNote p st w =
      (Ok (setError None st, Some (Navigate "Home")),
       set_item (Some (JSON_stringify (written p n prior))) w1).
Proof.
  intros Hv Hr Hw Hp.
  assert (Hnew : exists n w1, newNote p st prior w = (Ok n, w1) /\
            item w1 = item w /\ reads_ok w1 = reads_ok w /\
            writes_ok w1 = writes_ok w /\ time w1 = time w).
  { unfold newNote, bind, ret, new_Date_toISOString, Date_now, bind, ret.
    destruct (truthy_opt (noteId p)).
    - destruct (find _ prior) as [old|].
      + destruct (truthy (Note.createdAt old)); simpl; eauto 10.
      + simpl; eauto 10.
    - simpl; eauto 10. }
  destruct Hnew as (n & w1 & Hn & Hi & Hr1 & Hw1 & Ht).
  exists n, w1. rewrite Hr1, Hw1. repeat split; auto.
  unfold saveNote. rewrite validateContent_ok by exact Hv.
  cbn [negb]. cbv iota.
  unfold try_catch, bind at 1. unfold AsyncStorage.getItem. cbv beta.
  rewrite Hr. cbv iota.
  unfold bind at 1. rewrite parse_stored_run.
  unfold persisted in Hp. rewrite Hp. cbv iota.
  unfold bind at 1. rewrite Hn. cbv iota.
  unfold bind, AsyncStorage.setItem, ret. rewrite Hw1, Hw. reflexivity.
Qed.

End Save.

Section NewNote.
Context {P : Platform}.
Import NoteScreen.

(** A new note reads the clock three times: for [id], [createdAt] and
    [updatedAt], in this order. *)
Lemma newNote_new (p : RouteParams) (st : State) (notes : list Note.t)
  (w : World) :
  truthy_opt (noteId p) = false ->
  newNote p st notes w =
    (Ok (Note.mk (Number_toString (time w (reads w)))
           (title st) (trim (content st)) (selectedCategory st)
           (toISOString (time w (S (reads w))))
           (toISOString (time w (S (S (reads w)))))),
     tick (tick (tick w))).
Proof. intros H. unfold newNote. rewrite H. reflexivity. Qed.


(** A supplied id that matches nothing: the note gets the supplied id and two
    fresh timestamps. *)
Lemma newNote_missing (p : RouteParams) (st : State) (notes : list Note.t)
  (w : World) (nid : string) :
  noteId p = Some nid -> truthy nid = true ->
  find (fun n => (Note.id n =? nid)%string) notes = None ->
  newNote p st notes w =
    (Ok (Note.mk nid (title st) (trim (content st)) (selectedCategory st)
           (toISOString (time w (reads w)))
           (toISOString (time w (S (reads w))))),
     tick (tick w)).
Proof.
  intros Hp Ht Hf. unfold newNote. rewrite Hp. simpl truthy_opt.
  rewrite Ht. simpl or_else. rewrite Ht, Hf. reflexivity.
Qed.

End NewNote.

(** ** Lists keyed by id *)

Lemma find_id_unique (l : list Note.t) (i : nat) (x : Note.t) :
  NoDup (map Note.id l) -> l !! i = Some x ->
  find (fun n => (Note.id n =? Note.id x)%string) l = Some x.
Proof.
  revert i. induction l as [|y l IH]; intros i Hnd Hi; [discriminate|].
  simpl in Hnd. apply NoDup_cons in Hnd as [Hy Hnd].
  destruct i as [|i]; simpl in *.
  - injection Hi as ->. now rewrite String.eqb_refl.
  - destruct (String.eqb_spec (Note.id y) (Note.id x)) as [E|_].
    + exfalso. apply Hy. rewrite E. apply list_elem_of_fmap.
      exists x. split; [reflexivity|]. eapply list_elem_of_lookup_2; eauto.
    + eauto.
Qed.

Lemma find_id_None (l : list Note.t) (k : string) :
  find (fun n => (Note.id n =? k)%string) l = None <->
  k ∉ map Note.id l.
Proof.
  induction l as [|y l IH]; simpl.
  - split; [intros _; apply not_elem_of_nil | reflexivity].
  - rewrite not_elem_of_cons.
    destruct (String.eqb_spec (Note.id y) k) as [E|N].
    + split; [discriminate | intros [H _]; congruence].
    + rewrite IH. intuition congruence.
Qed.

(** Replacing by id where the id occurs once is an update at its index. *)
Lemma map_replace_unique (l : list Note.t) (i : nat) (x y : Note.t) :
  NoDup (map Note.id l) -> l !! i = Some x ->
  map (fun n => if (Note.id n =? Note.id x)%string then y else n) l
  = <[i := y]> l.
Proof.
  revert i. induction l as [|z l IH]; intros i Hnd Hi; [discriminate|].
  simpl in Hnd. apply NoDup_cons in Hnd as [Hz Hnd].
  destruct i as [|i]; simpl in *.
  - injection Hi as ->. rewrite String.eqb_refl. f_equal.
    clear IH. induction l as [|u l IHl]; [reflexivity|]. simpl in *.
    apply not_elem_of_cons in Hz as [Hu Hz].
    apply NoDup_cons in Hnd as [_ Hnd].
    destruct (String.eqb_spec (Note.id u) (Note.id x)); [congruence|].
    f_equal. now apply IHl.
  - destruct (String.eqb_spec (Note.id z) (Note.id x)) as [E|_].
    + exfalso. apply Hz. rewrite E. apply list_elem_of_fmap.
      exists x. split; [reflexivity|]. eapply list_elem_of_lookup_2; eauto.
    + f_equal. eauto.
Qed.

(** Replacing by an id that does not occur changes nothing. *)
Lemma map_replace_absent (l : list Note.t) (k : string) (y : Note.t) :
  k ∉ map Note.id l ->
  map (fun n => if (Note.id n =? k)%string then y else n) l = l.
Proof.
  induction l as [|z l IH]; intros H; [reflexivity|]. simpl in *.
  apply not_elem_of_cons in H as [Hz H].
  destruct (String.eqb_spec (Note.id z) k); [congruence|].
  f_equal. now apply IH.
Qed.

(** Replacing by id, with a note of that id, keeps the ids. *)
Lemma map_replace_ids (l : list Note.t) (k : string) (y : Note.t) :
  Note.id y = k ->
  map Note.id (map (fun n => if (Note.id n =? k)%string then y else n) l)
  = map Note.id l.
Proof.
  intros Hy. induction l as [|z l IH]; [reflexivity|]. simpl.
  rewrite IH. f_equal.
  destruct (String.eqb_spec (Note.id z) k); congruence.
Qed.




(** ** Saving a note *)

Section SaveClaims.
Context {P : Platform}.
Import NoteScreen.

(** C1 (as amended). Saving a draft whose trimmed content has between 1 and
    200 characters, with no existing id, over a readable and writable store
    that holds [prior], navigates Home, and the collection loaded afterwards
    is [prior] followed by exactly one new note: its content is the TRIMMED
    draft content, its category and title are the draft's, its id is the
    decimal clock reading, and [createdAt], [updatedAt] are the ISO texts of
    the next two clock readings, hence equal exactly when the clock did not
    move between them. *)
Theorem save_new_then_load (p : RouteParams) (st : State) (w : World)
  (prior : list Note.t) :
  reads_ok w = true -> writes_ok w = true ->
  persisted w = Some prior ->
  truthy_opt (noteId p) = false ->
  (1 <= String.length (trim (content st)) <= 200)%nat ->
  exists (w' : World) (n : Note.t),
    saveNote p st w = (Ok (setError None st, Some (Navigate "Home")), w') /\
    HomeScreen.loadNotes w' = (Ok (prior ++ [n]), w') /\
    Note.content n = trim (content st) /\
    Note.categoryId n = selectedCategory st /\
    Note.title n = title st /\
    Note.id n = Number_toString (time w (reads w)) /\
    Note.createdAt n = toISOString (time w (S (reads w))) /\
    Note.updatedAt n = toISOString (time w (S (S (reads w)))) /\
    (Note.createdAt n = Note.updatedAt n <->
     time w (S (reads w)) = time w (S (S (reads w)))).
Proof.
  intros Hr Hw Hp Hid [Hlen _].
  assert (Hv : truthy (trim (content st)) = true)
    by (apply truthy_true; destruct (trim (content st)); simpl in *;
        [lia | discriminate]).
  destruct (saveNote_run p st w prior Hv Hr Hw Hp)
    as (n & w1 & Hn & Hi & Hr1 & Hw1 & Ht & Hs).
  rewrite newNote_new in Hn by exact Hid. injection Hn as <- <-.
  eexists _, _. split; [exact Hs|].
  unfold written. rewrite Hid.
  split.
  { rewrite HomeScreen_loadNotes_run. simpl reads_ok. rewrite Hr.
    unfold persisted. simpl item. rewrite decode_stringify. reflexivity. }
  simpl. repeat split; try reflexivity.
  - intros E. apply (f_equal Date_getTime) in E.
    rewrite !getTime_toISOString in E. congruence.
  - now intros ->.
Qed.

(** C3 (what the code does). When the supplied id is non-empty and matches
    no note of the collection [prior], a valid save builds a note with that
    id and two fresh timestamps, but writes [prior] back unchanged and
    navigates Home: the note is not appended, and what is loaded afterwards
    is [prior]. *)
Theorem save_unknown_id_drops_note (p : RouteParams) (st : State) (w : World)
  (prior : list Note.t) (nid : string) :
  reads_ok w = true -> writes_ok w = true ->
  persisted w = Some prior ->
  noteId p = Some nid -> nid <> "" ->
  nid ∉ map Note.id prior ->
  (1 <= String.length (trim (content st)) <= 200)%nat ->
  newNote p st prior w =
    (Ok (Note.mk nid (title st) (trim (content st)) (selectedCategory st)
           (toISOString (time w (reads w)))
           (toISOString (time w (S (reads w))))),
     tick (tick w)) /\
  exists w' : World,
    saveNote p st w = (Ok (setError None st, Some (Navigate "Home")), w') /\
    HomeScreen.loadNotes w' = (Ok prior, w').
Proof.
  intros Hr Hw Hp Hid Hne Hnot [Hlen _].
  assert (Hv : truthy (trim (content st)) = true)
    by (apply truthy_true; destruct (trim (content st)); simpl in *;
        [lia | discriminate]).
  split.
  { apply newNote_missing; [exact Hid | now apply truthy_true |].
    now apply find_id_None. }
  destruct (saveNote_run p st w prior Hv Hr Hw Hp)
    as (n & w1 & Hn & Hi1 & Hr1 & Hw1 & Ht & Hs).
  eexists. split; [exact Hs|].
  assert (Hwr : written p n prior = prior).
  { unfold written. rewrite Hid. simpl.
    replace (truthy nid) with true by (symmetry; now apply truthy_true).
    now apply map_replace_absent. }
  rewrite Hwr, HomeScreen_loadNotes_run. simpl reads_ok. rewrite Hr1.
  unfold persisted. simpl item. rewrite decode_stringify. reflexivity.
Qed.

End SaveClaims.

(** ** Every handler ends, whatever the store does *)

Section Outcomes.
Context {P : Platform}.
Import NoteScreen.

(** [newNote] does not throw; it only reads the clock. *)
Lemma newNote_total (p : RouteParams) (st : State) (notes : list Note.t)
  (w : World) :
  exists n w1,
    newNote p st notes w = (Ok n, w1) /\
    item w1 = item w /\ reads_ok w1 = reads_ok w /\
    writes_ok w1 = writes_ok w /\ time w1 = time w /\
    (reads w <= reads w1)%nat /\
    Note.content n = trim (content st) /\
    Note.categoryId n = selectedCategory st /\
    (truthy_opt (noteId p) = true -> Note.id n = or_else (noteId p) "") /\
    (truthy_opt (noteId p) = false ->
       Note.id n = Number_toString (time w (reads w)) /\
       (reads w < reads w1)%nat).
Proof.
  unfold newNote, bind, ret, new_Date_toISOString, Date_now, bind, ret.
  destruct (truthy_opt (noteId p)) eqn:E.
  - destruct (find _ notes) as [old|].
    + destruct (truthy (Note.createdAt old)); simpl;
        eexists _, _; repeat split; simpl; try reflexivity;
        try lia; discriminate.
    + simpl. eexists _, _; repeat split; simpl; try reflexivity;
        try lia; discriminate.
  - simpl. eexists _, _; repeat split; simpl; try reflexivity;
      try lia; discriminate.
Qed.

(** [saveNote] always ends with a value. Either the stored value is left as
    it was, or the draft was valid, the store held a collection [prior], and
    the stored value is now the text of [written p n prior] for the note [n]
    of [newNote]. *)
Lemma saveNote_cases (p : RouteParams) (st : State) (w : World) :
  exists st' eff w',
    saveNote p st w = (Ok (st', eff), w') /\
    time w' = time w /\ (reads w <= reads w')%nat /\
    (item w' = item w \/
     exists prior n w1,
       truthy (trim (content st)) = true /\
       persisted w = Some prior /\
       newNote p st prior w = (Ok n, w1) /\
       reads w' = reads w1 /\
       item w' = Some (JSON_stringify (written p n prior))).
Proof.
  destruct (truthy (trim (content st))) eqn:Hv.
  2:{ unfold saveNote. rewrite validateContent_rejects by exact Hv.
      simpl. unfold ret. eexists _, _, _. repeat split; auto. }
  unfold saveNote. rewrite validateContent_ok by exact Hv.
  cbn [negb]. cbv iota.
  unfold try_catch, bind at 1. unfold AsyncStorage.getItem. cbv beta.
  destruct (reads_ok w) eqn:Hr; cbv iota.
  2:{ unfold ret. eexists _, _, _. repeat split; auto. }
  unfold bind at 1. rewrite parse_stored_run.
  destruct (decode (item w)) as [prior|] eqn:Hp; cbv iota.
  2:{ unfold ret. eexists _, _, _. repeat split; auto. }
  destruct (newNote_total p st prior w)
    as (n & w1 & Hn & Hi & Hr1 & Hw1 & Ht & Hle & _).
  unfold bind at 1. rewrite Hn. cbv iota.
  unfold bind, AsyncStorage.setItem, ret.
  destruct (writes_ok w1) eqn:Hw.
  - eexists _, _, _. repeat split; simpl; auto.
    right. exists prior, n, w1. repeat split; auto.
  - eexists _, _, _. repeat split; simpl; auto.
Qed.

(** [loadNote] swallows every failure and leaves the world as it was. *)
Lemma loadNote_run (nid : string) (st : State) (w : World) :
  exists st',
    loadNote nid st w = (Ok st', w) /\
    (st' = st \/
     exists ns note,
       persisted w = Some ns /\ note ∈ ns /\
       st' = setSelectedCategory (Note.categoryId note)
               (setContent (Note.content note)
                  (setTitle (Note.title note) st))).
Proof.
  unfold loadNote, try_catch, bind, AsyncStorage.getItem, persisted, decode.
  destruct (reads_ok w); [|unfold ret; eauto].
  destruct (item w) as [s|]; [|unfold ret; eauto].
  destruct (truthy s); [|unfold ret; eauto].
  unfold JSON_parse_M. destruct (JSON_parse s) as [ns|];
    [|unfold throw, ret; eauto].
  unfold ret at 1.
  destruct (find _ ns) as [note|] eqn:Hf; [|unfold ret; eauto].
  unfold ret. eexists. split; [reflexivity|]. right.
  exists ns, note. repeat split.
  apply find_some in Hf as [Hin _]. now apply list_elem_of_In.
Qed.

Lemma mount_run (p : RouteParams) (st : State) (w : World) :
  exists st',
    mount p st w = (Ok st', w) /\
    (selectedCategory st' = selectedCategory st \/
     (exists c, categoryId p = Some c /\ c <> "" /\
                selectedCategory st' = c) \/
     (exists ns note, persisted w = Some ns /\ note ∈ ns /\
        selectedCategory st' = Note.categoryId note)).
Proof.
  unfold mount.
  set (st1 := match categoryId p with
              | Some c => if truthy c then setSelectedCategory c st else st
              | None => st
              end).
  assert (H1 : selectedCategory st1 = selectedCategory st \/
               exists c, categoryId p = Some c /\ c <> "" /\
                         selectedCategory st1 = c).
  { subst st1. destruct (categoryId p) as [c|]; [|now left].
    destruct (truthy c) eqn:E; [|now left].
    right. exists c. repeat split. now apply truthy_true. }
  destruct (noteId p) as [i|]; [|unfold ret; exists st1; intuition].
  destruct (truthy i); [|unfold ret; exists st1; intuition].
  destruct (loadNote_run i st1 w) as (st' & Hl & [-> | (ns & note & Hp & Hin & ->)]).
  - exists st1. intuition.
  - eexists. split; [exact Hl|]. right. right. exists ns, note. auto.
Qed.

(** The events of the Note screen move [selectedCategory] only to a fixed
    category. *)
Lemma handle_selectedCategory (st : State) (ev : App.NoteEvent) :
  selectedCategory (App.handle st ev) = selectedCategory st \/
  selectedCategory (App.handle st ev) ∈ category_ids.
Proof.
  destruct ev as [text| |i]; simpl.
  - unfold handleContentChange.
    destruct (_ <=? _)%nat; [|now left].
    destruct (truthy_opt _); now left.
  - now left.
  - destruct (dropdownOpen st); [|now left].
    destruct (CATEGORIES !! i) as [c|] eqn:E; [|now left].
    right. simpl. unfold category_ids.
    apply list_elem_of_fmap. exists c. split; [reflexivity|].
    eapply list_elem_of_lookup_2; eauto.
Qed.

Lemma foldl_handle_selectedCategory (evs : list App.NoteEvent) (st : State) :
  selectedCategory (foldl App.handle st evs) = selectedCategory st \/
  selectedCategory (foldl App.handle st evs) ∈ category_ids.
Proof.
  revert st. induction evs as [|ev evs IH]; intros st; simpl; [now left|].
  destruct (IH (App.handle st ev)) as [E|H]; [|now right].
  rewrite E. apply handle_selectedCategory.
Qed.

End Outcomes.

(** ** Invariants of the reachable states *)

Section Invariant.
Context {P : Platform}.
Import NoteScreen.

Lemma stored_as_persisted (w : World) (ns : list Note.t) :
  stored_as w ns -> persisted w = Some ns.
Proof.
  unfold persisted. intros [[-> ->] | ->]; [reflexivity|].
  apply decode_stringify.
Qed.

Variable allowed : RouteParams -> Prop.

(** A property of collections, relative to the clock and to the number of
    readings taken so far. *)
Variable I : (nat -> Z) -> nat -> list Note.t -> Prop.

Hypothesis I_nil : forall t k, I t k [].
Hypothesis I_mono :
  forall t k k' ns, (k <= k')%nat -> I t k ns -> I t k' ns.
Hypothesis I_filter :
  forall t k ns (f : Note.t -> bool), I t k ns -> I t k (List.filter f ns).
Hypothesis I_save :
  forall p evs w ns st0 n w1,
    allowed p ->
    persisted w = Some ns -> I (time w) (reads w) ns ->
    mount p initial w = (Ok st0, w) ->
    truthy (trim (content (foldl App.handle st0 evs))) = true ->
    newNote p (foldl App.handle st0 evs) ns w = (Ok n, w1) ->
    I (time w) (reads w1) (written p n ns).

Lemma perform_preserves (act : App.Action) (a : App.t) :
  App.permitted allowed act -> holds_in I a -> holds_in I (App.perform act a).
Proof.
  intros Hact (ns & Hst & Hns & Hhome).
  pose proof (stored_as_persisted _ _ Hst) as Hp.
  unfold holds_in. destruct act as [|p evs|nid| |r wr]; simpl.
  - (* Focus *)
    rewrite HomeScreen_loadNotes_run. simpl.
    exists ns. repeat split; auto.
    destruct (reads_ok (App.world a)); [|apply I_nil]. now rewrite Hp.
  - (* Session *)
    unfold App.session, bind.
    destruct (mount_run p initial (App.world a)) as (st0 & Hm & _).
    rewrite Hm.
    destruct (saveNote_cases p (foldl App.handle st0 evs) (App.world a))
      as (st' & eff & w' & Hs & Ht & Hle & Hcase).
    rewrite Hs. simpl. rewrite Ht.
    destruct Hcase as [Hi | (prior & n & w1 & Hv & Hp' & Hn & Hr & Hi)].
    + exists ns. repeat split; eauto.
      unfold stored_as. now rewrite Hi.
    + rewrite Hp in Hp'. injection Hp' as <-.
      exists (written p n ns). repeat split; eauto.
      * right. exact Hi.
      * rewrite Hr. eapply I_save; eauto.
  - (* Delete *)
    unfold HomeScreen.deleteNote, try_catch, bind, AsyncStorage.setItem, ret.
    destruct (writes_ok (App.world a)); simpl.
    + eexists. split; [right; reflexivity|]. split; now apply I_filter.
    + exists ns. repeat split; auto.
  - (* Clear *)
    unfold SettingsScreen.clearAllNotes, try_catch, bind,
      AsyncStorage.removeItem, ret.
    destruct (writes_ok (App.world a)); simpl.
    + exists []. repeat split; auto. now left.
    + exists ns. repeat split; auto.
  - (* Env *)
    exists ns. repeat split; auto.
Qed.

Lemma reachable_holds (a : App.t) :
  App.reachable allowed a -> holds_in I a.
Proof.
  induction 1 as [clock r wr | a act _ IH Hact].
  - exists []. repeat split; simpl; auto. now left.
  - now apply perform_preserves.
Qed.

(** What is loaded from a reachable state satisfies the invariant. *)
Lemma reachable_persisted (a : App.t) (ns : list Note.t) :
  App.reachable allowed a -> persisted (App.world a) = Some ns ->
  I (time (App.world a)) (reads (App.world a)) ns.
Proof.
  intros Hr Hp. destruct (reachable_holds a Hr) as (ns' & Hst & Hns & _).
  apply stored_as_persisted in Hst. congruence.
Qed.

End Invariant.

(** ** What holds of every reachable collection *)

Section Reachable.
Context {P : Platform}.
Import NoteScreen.

Lemma Forall_written (Q : Note.t -> Prop) (p : RouteParams) (n : Note.t)
  (ns : list Note.t) :
  Q n -> Forall Q ns -> Forall Q (written p n ns).
Proof.
  intros Hn Hns. unfold written. destruct (truthy_opt (noteId p)).
  - induction Hns as [|x l Hx _ IH]; simpl; constructor; auto.
    destruct (_ =? _)%string; auto.
  - apply Forall_app. split; auto.
Qed.

Lemma Forall_filter_keep (Q : Note.t -> Prop) (f : Note.t -> bool)
  (ns : list Note.t) :
  Forall Q ns -> Forall Q (List.filter f ns).
Proof.
  induction 1 as [|x l Hx _ IH]; simpl; [constructor|].
  destruct (f x); [constructor|]; auto.
Qed.

Lemma ids_filter_subset (f : Note.t -> bool) (ns : list Note.t) (x : string) :
  x ∈ map Note.id (List.filter f ns) -> x ∈ map Note.id ns.
Proof.
  intros Hx. apply list_elem_of_fmap in Hx as (z & -> & Hz).
  apply list_elem_of_fmap. exists z. split; [reflexivity|].
  apply list_elem_of_In. apply list_elem_of_In in Hz.
  apply filter_In in Hz. tauto.
Qed.

Lemma NoDup_ids_filter (f : Note.t -> bool) (ns : list Note.t) :
  NoDup (map Note.id ns) -> NoDup (map Note.id (List.filter f ns)).
Proof.
  induction ns as [|y l IH]; simpl; intros Hnd; [constructor|].
  apply NoDup_cons in Hnd as [Hy Hnd].
  destruct (f y); simpl; [|now apply IH].
  apply NoDup_cons. split; [|now apply IH].
  intros Hin. apply Hy. eapply ids_filter_subset, Hin.
Qed.


Lemma CATEGORIES_0_id_known : CATEGORIES_0_id ∈ category_ids.
Proof. unfold CATEGORIES_0_id, category_ids. simpl. apply list_elem_of_here. Qed.

Lemma reachable_category_known (a : App.t) (ns : list Note.t) :
  App.reachable App.known_category a -> persisted (App.world a) = Some ns ->
  Forall category_known ns.
Proof.
  apply (reachable_persisted App.known_category
           (fun _ _ => Forall category_known)).
  - constructor.
  - auto.
  - intros _ _ l f. apply Forall_filter_keep.
  - intros p evs w l st0 n w1 Hp Hper Hl Hm _ Hn.
    apply Forall_written; [|exact Hl].
    destruct (newNote_total p (foldl App.handle st0 evs) l w)
      as (n' & w1' & Hn' & _ & _ & _ & _ & _ & _ & Hc & _).
    rewrite Hn in Hn'. injection Hn' as <- <-.
    unfold category_known. rewrite Hc.
    destruct (foldl_handle_selectedCategory evs st0) as [-> | H]; [|exact H].
    destruct (mount_run p initial w) as (st0' & Hm' & Hsel).
    rewrite Hm in Hm'. injection Hm' as <-.
    destruct Hsel as [-> | [(c & Hc1 & Hc2 & ->) | (l' & note & Hl' & Hin & ->)]].
    + apply CATEGORIES_0_id_known.
    + unfold App.known_category in Hp. rewrite Hc1 in Hp.
      destruct Hp; [contradiction | assumption].
    + rewrite Hper in Hl'. injection Hl' as <-.
      rewrite Forall_forall in Hl. now apply Hl.
Qed.

Lemma reachable_ids_from_clock (allowed : RouteParams -> Prop) (a : App.t)
  (ns : list Note.t) :
  App.reachable allowed a -> persisted (App.world a) = Some ns ->
  distinct_readings (time (App.world a)) ->
  ids_from_clock (time (App.world a)) (reads (App.world a)) ns.
Proof.
  apply (reachable_persisted allowed
           (fun t k l => distinct_readings t -> ids_from_clock t k l)).
  - intros t k _. split; [constructor|].
    intros x Hx. simpl in Hx. now apply elem_of_nil in Hx.
  - intros t k k' l Hk H Hd. destruct (H Hd) as [Hnd Hb].
    split; [exact Hnd|]. intros x Hx. destruct (Hb x Hx) as (j & Hj & ->).
    exists j. split; [lia | reflexivity].
  - intros t k l f H Hd. destruct (H Hd) as [Hnd Hb]. split.
    + now apply NoDup_ids_filter.
    + intros x Hx. eapply Hb, ids_filter_subset, Hx.
  - intros p evs w l st0 n w1 _ _ Hl _ _ Hn Hd.
    destruct (Hl Hd) as [Hnd Hb].
    destruct (newNote_total p (foldl App.handle st0 evs) l w)
      as (n' & w1' & Hn' & _ & _ & _ & _ & Hle & _ & _ & Hid1 & Hid2).
    rewrite Hn in Hn'. injection Hn' as <- <-.
    unfold written. destruct (truthy_opt (noteId p)) eqn:Ht.
    + unfold ids_from_clock.
      rewrite map_replace_ids by (now apply Hid1).
      split; [exact Hnd|]. intros x Hx.
      destruct (Hb x Hx) as (j & Hj & ->). exists j. split; [lia|reflexivity].
    + destruct (Hid2 eq_refl) as [Hid Hlt]. unfold ids_from_clock.
      rewrite map_app. simpl. split.
      * apply NoDup_app. split; [exact Hnd|]. split.
        -- intros x Hx Hx'. apply list_elem_of_singleton in Hx'. subst x.
           destruct (Hb _ Hx) as (j & Hj & Hj').
           rewrite Hid in Hj'. apply Number_toString_inj, Hd in Hj'. lia.
        -- apply NoDup_singleton.
      * intros x Hx. apply elem_of_app in Hx as [Hx | Hx].
        -- destruct (Hb x Hx) as (j & Hj & ->). exists j.
           split; [lia|reflexivity].
        -- apply list_elem_of_singleton in Hx. subst x.
           exists (reads w). split; [lia | exact Hid].
Qed.

(** The note of [newNote] has a non-empty id and a dated [createdAt], if
    the notes it was built over are dated. *)
Lemma newNote_well_formed (p : RouteParams) (st : State)
  (notes : list Note.t) (w w1 : World) (n : Note.t) :
  Forall dated notes ->
  newNote p st notes w = (Ok n, w1) ->
  Note.id n <> "" /\ dated n.
Proof.
  intros Hd. unfold newNote, bind, ret, new_Date_toISOString, Date_now,
    bind, ret, dated.
  destruct (truthy_opt (noteId p)) eqn:E.
  - assert (Hid : or_else (noteId p) "" <> "").
    { destruct (noteId p) as [i|]; [|discriminate]. simpl in *.
      rewrite E. now apply truthy_true. }
    destruct (find _ notes) as [old|] eqn:Hf.
    + destruct (truthy (Note.createdAt old)); simpl; intros [= <- _]; simpl;
        (split; [exact Hid|]); [|rewrite getTime_toISOString; eauto].
      apply find_some in Hf as [Hin _].
      rewrite List.Forall_forall in Hd. now apply Hd.
    + simpl. intros [= <- _]. simpl. split; [exact Hid|].
      rewrite getTime_toISOString; eauto.
  - simpl. intros [= <- _]. simpl.
    split; [apply Number_toString_nonempty|].
    rewrite getTime_toISOString; eauto.
Qed.

(** With distinct clock readings, every reachable collection is as the data
    model has it. *)
Lemma reachable_well_formed (allowed : RouteParams -> Prop) (a : App.t)
  (ns : list Note.t) :
  App.reachable allowed a -> persisted (App.world a) = Some ns ->
  distinct_readings (time (App.world a)) ->
  well_formed ns.
Proof.
  intros Hr Hp Hd. split.
  - exact (proj1 (reachable_ids_from_clock allowed a ns Hr Hp Hd)).
  - revert Hr Hp.
    apply (reachable_persisted allowed
             (fun _ _ =>
                Forall (fun n : Note.t => Note.id n <> "" /\ dated n))).
    + constructor.
    + auto.
    + intros _ _ l f. apply Forall_filter_keep.
    + intros p evs w l st0 n w1 _ _ Hl _ _ Hn.
      apply Forall_written; [|exact Hl].
      eapply newNote_well_formed; [|exact Hn].
      eapply Forall_impl; [exact Hl|]. now intros x [_ Hx].
Qed.


End Reachable.

(** ** Sorting by a key, most recent first *)

Section SortByKey.
Context {A : Type}.
Variable cmp : A -> A -> option Z.
Variable key : A -> Z.

Lemma sort_insert_perm (x : A) (l : list A) :
  Permutation (sort_insert cmp x l) (x :: l).
Proof.
  induction l as [|y l IH]; simpl; [reflexivity|].
  destruct (_ <=? _)%Z; [reflexivity|].
  rewrite IH. apply perm_swap.
Qed.

Lemma Array_sort_perm (l : list A) : Permutation (Array_sort cmp l) l.
Proof.
  induction l as [|x l IH]; simpl; [reflexivity|].
  rewrite sort_insert_perm. now constructor.
Qed.

Lemma Array_sort_length (l : list A) :
  length (Array_sort cmp l) = length l.
Proof. apply Permutation_length, Array_sort_perm. Qed.

Lemma Array_sort_In (l : list A) (x : A) :
  In x (Array_sort cmp l) <-> In x l.
Proof.
  split; apply Permutation_in;
    [apply Array_sort_perm | symmetry; apply Array_sort_perm].
Qed.

Lemma sort_insert_sorted (x : A) (l : list A) :
  compares_keys cmp key (x :: l) ->
  StronglySorted (key_desc key) l -> StronglySorted (key_desc key) (sort_insert cmp x l).
Proof.
  intros Hc Hs. induction Hs as [|y l Hs IH Hy]; simpl.
  - repeat constructor.
  - assert (Hxy : SortCompare cmp x y = (key y - key x)%Z)
      by (apply Hc; simpl; auto).
    rewrite Hxy.
    destruct (Z.leb_spec (key y - key x) 0) as [Hle|Hgt].
    + constructor; [constructor; assumption|].
      constructor; [unfold key_desc; lia|].
      eapply Forall_impl; [exact Hy|].
      intros z Hz. unfold key_desc in *. lia.
    + constructor.
      * apply IH. intros a b Ha Hb. apply Hc; simpl in *; tauto.
      * apply List.Forall_forall. intros z Hz.
        apply (Permutation_in _ (sort_insert_perm x l)) in Hz.
        destruct Hz as [<- | Hz]; [unfold key_desc; lia|].
        rewrite List.Forall_forall in Hy. now apply Hy.
Qed.

(** The result is in descending order of key. *)
Lemma Array_sort_sorted (l : list A) :
  compares_keys cmp key l -> StronglySorted (key_desc key) (Array_sort cmp l).
Proof.
  induction l as [|x l IH]; intros Hc; simpl; [constructor|].
  apply sort_insert_sorted.
  - intros a b Ha Hb. apply Hc.
    + destruct Ha as [<- | Ha]; [now left | right; exact (proj1 (Array_sort_In l a) Ha)].
    + destruct Hb as [<- | Hb]; [now left | right; exact (proj1 (Array_sort_In l b) Hb)].
  - apply IH. intros a b Ha Hb. apply Hc; now right.
Qed.

Lemma sort_insert_with_key (k : Z) (x : A) (l : list A) :
  compares_keys cmp key (x :: l) ->
  with_key key k (sort_insert cmp x l) = with_key key k (x :: l).
Proof.
  intros Hc. induction l as [|y l IH]; [reflexivity|].
  simpl sort_insert.
  assert (Hxy : SortCompare cmp x y = (key y - key x)%Z)
    by (apply Hc; simpl; auto).
  rewrite Hxy.
  destruct (Z.leb_spec (key y - key x) 0) as [Hle|Hgt]; [reflexivity|].
  unfold with_key in *. simpl. simpl in IH.
  rewrite IH by (intros a b Ha Hb; apply Hc; simpl in *; tauto).
  destruct (Z.eqb_spec (key x) k), (Z.eqb_spec (key y) k);
    try reflexivity. lia.
Qed.

(** The sort is stable: the elements of any one key keep their order. *)
Lemma Array_sort_stable (k : Z) (l : list A) :
  compares_keys cmp key l -> with_key key k (Array_sort cmp l) = with_key key k l.
Proof.
  induction l as [|x l IH]; intros Hc; [reflexivity|]. simpl Array_sort.
  rewrite sort_insert_with_key.
  - unfold with_key in *. simpl. rewrite IH; [reflexivity|].
    intros a b Ha Hb. apply Hc; now right.
  - intros a b Ha Hb. apply Hc.
    + destruct Ha as [<- | Ha]; [now left | right; exact (proj1 (Array_sort_In l a) Ha)].
    + destruct Hb as [<- | Hb]; [now left | right; exact (proj1 (Array_sort_In l b) Hb)].
Qed.

Lemma with_key_take (k : Z) (n : nat) (l : list A) :
  with_key key k (take n l) `prefix_of` with_key key k l.
Proof.
  revert n. induction l as [|x l IH]; intros [|n]; simpl;
    try apply prefix_nil.
  unfold with_key in *. simpl.
  destruct (key x =? k)%Z; [apply prefix_cons|]; apply IH.
Qed.

End SortByKey.

Section Sorted.
Context {A : Type}.

Lemma StronglySorted_take (R : A -> A -> Prop) (n : nat) (l : list A) :
  StronglySorted R l -> StronglySorted R (take n l).
Proof.
  intros Hs. revert n. induction Hs as [|x l Hs IH Hx]; intros [|n]; simpl;
    try constructor; auto.
  apply List.Forall_forall. intros z Hz.
  rewrite List.Forall_forall in Hx. apply Hx.
  apply list_elem_of_In in Hz. apply elem_of_take in Hz as (i & Hi & _).
  apply list_elem_of_In. eapply list_elem_of_lookup_2; eauto.
Qed.

Lemma StronglySorted_app_cross (R : A -> A -> Prop) (l1 l2 : list A) :
  StronglySorted R (l1 ++ l2) -> Forall (fun a => Forall (R a) l2) l1.
Proof.
  induction l1 as [|x l1 IH]; simpl; intros Hs; [constructor|].
  apply StronglySorted_inv in Hs as [Hs Hx].
  constructor; [|now apply IH].
  apply Forall_app in Hx. tauto.
Qed.

End Sorted.

(** ** Loading, counting, listing *)

(** *** The loaders on values *)

Section LoadValues.
Context {P : Platform} {V : JSONValues}.











End LoadValues.

Section Views.
Context {P : Platform}.


Lemma countNotes_lookup (ns : list Note.t) (c : Category.t) :
  c ∈ CATEGORIES ->
  SummaryScreen.countNotes ns !! Category.id c
  = Some (count_in (Category.id c) ns).
Proof.
  unfold CATEGORIES, SummaryScreen.countNotes. simpl.
  rewrite !elem_of_cons, elem_of_nil.
  intros [-> | [-> | [-> | []]]]; simpl.
  - rewrite lookup_insert_ne by discriminate.
    rewrite lookup_insert_ne by discriminate.
    now rewrite lookup_insert_eq.
  - rewrite lookup_insert_ne by discriminate.
    now rewrite lookup_insert_eq.
  - now rewrite lookup_insert_eq.
Qed.

Lemma count_in_total (ns : list Note.t) :
  Forall category_known ns ->
  (count_in "work-study" ns + (count_in "life" ns
     + (count_in "health" ns + 0)) = length ns)%nat.
Proof.
  unfold count_in.
  induction 1 as [|n ns Hn _ IH]; [reflexivity|].
  unfold category_known, category_ids, CATEGORIES in Hn. simpl in Hn.
  rewrite !elem_of_cons, elem_of_nil in Hn. simpl.
  destruct Hn as [-> | [-> | [-> | []]]]; simpl; lia.
Qed.

(** C7. When the store is readable and holds the collection [ns] (the empty
    one included), the Summary screen loads [ns] with counts such that every
    fixed category is shown with the number of notes of [ns] that carry its
    id; when a text is stored, the count of every fixed category is present
    in [categoryCounts], as an explicit number, zero included; and if every
    note carries a fixed category id, the three counts add up to the size of
    [ns]. *)
Theorem count_by_category (w : World) (ns : list Note.t) :
  reads_ok w = true -> persisted w = Some ns ->
  exists counts : gmap string nat,
    SummaryScreen.loadNotes w = (Ok (ns, counts), w) /\
    (forall c, c ∈ CATEGORIES ->
       SummaryScreen.shownCount counts c = count_in (Category.id c) ns) /\
    (truthy_opt (item w) = true ->
     forall c, c ∈ CATEGORIES ->
       counts !! Category.id c = Some (count_in (Category.id c) ns)) /\
    (Forall category_known ns ->
     sum_list (map (SummaryScreen.shownCount counts) CATEGORIES)
     = length ns).
Proof.
  intros Hr Hp. rewrite SummaryScreen_loadNotes_run, Hr.
  unfold persisted, decode in Hp.
  assert (Hshown : forall c, c ∈ CATEGORIES ->
            SummaryScreen.shownCount (SummaryScreen.countNotes ns) c
            = count_in (Category.id c) ns).
  { intros c Hc. unfold SummaryScreen.shownCount.
    now rewrite countNotes_lookup. }
  assert (Hsum : Forall category_known ns ->
            sum_list (map (SummaryScreen.shownCount
                             (SummaryScreen.countNotes ns)) CATEGORIES)
            = length ns).
  { intros Hk. unfold CATEGORIES. simpl.
    rewrite !Hshown by (unfold CATEGORIES; set_solver).
    now apply count_in_total. }
  assert (Hempty : exists counts : gmap string nat,
            (Ok (([] : list Note.t), (∅ : gmap string nat)), w)
            = (Ok ([], counts), w) /\
            (forall c, c ∈ CATEGORIES ->
               SummaryScreen.shownCount counts c = count_in (Category.id c) []) /\
            (sum_list (map (SummaryScreen.shownCount counts) CATEGORIES) = 0)%nat).
  { exists ∅. repeat split. }
  destruct (item w) as [s|] eqn:Hi; simpl.
  - destruct (truthy s) eqn:E.
    + rewrite Hp. eexists. split; [reflexivity|].
      split; [exact Hshown|]. split; [|exact Hsum].
      intros _ c Hc. now apply countNotes_lookup.
    + injection Hp as <-. destruct Hempty as (counts & [= <-] & H1 & H2).
      eexists. split; [reflexivity|]. split; [exact H1|].
      split; [discriminate | intros _; exact H2].
  - injection Hp as <-. destruct Hempty as (counts & [= <-] & H1 & H2).
    eexists. split; [reflexivity|]. split; [exact H1|].
    split; [discriminate | intros _; exact H2].
Qed.

Lemma byCreatedAtDesc_compares (l : list Note.t) :
  Forall dated l -> compares_keys HomeScreen.byCreatedAtDesc createdTime l.
Proof.
  intros Hd x y Hx Hy. rewrite List.Forall_forall in Hd.
  destruct (Hd x Hx) as [tx Ex], (Hd y Hy) as [ty Ey].
  unfold SortCompare, HomeScreen.byCreatedAtDesc, createdTime.
  now rewrite Ex, Ey.
Qed.

(** C8 (as amended). On a collection whose [createdAt] fields are dates,
    [getLatestNotesForCategory] returns at most THREE notes (three, or all
    the notes of the category if they are fewer); every returned note is a
    note of the collection with the given category id; the returned notes
    are in descending order of creation time; the returned notes of any one
    creation time are, in their original order, the first such notes of the
    collection in that category; and no note of the category that is left
    out is more recent than a returned one. *)
Theorem latest_notes_for_category (notes : list Note.t) (cid : string) :
  Forall dated notes ->
  let matching :=
    List.filter (fun n => (Note.categoryId n =? cid)%string) notes in
  let r := HomeScreen.getLatestNotesForCategory notes cid in
  (length r <= 3)%nat /\
  length r = Nat.min 3 (length matching) /\
  Forall (fun n => Note.categoryId n = cid /\ n ∈ notes) r /\
  StronglySorted (fun a b => (createdTime b <= createdTime a)%Z) r /\
  (forall t,
     with_key createdTime t r `prefix_of` with_key createdTime t matching) /\
  (exists rest,
     Permutation (r ++ rest) matching /\
     Forall (fun n => Forall (fun m => (createdTime m <= createdTime n)%Z)
                        rest) r).
Proof.
  intros Hd matching r.
  assert (Hdm : Forall dated matching).
  { apply List.Forall_forall. intros n Hn. apply filter_In in Hn as [Hn _].
    rewrite List.Forall_forall in Hd. now apply Hd. }
  pose proof (byCreatedAtDesc_compares matching Hdm) as Hc.
  subst r. unfold HomeScreen.getLatestNotesForCategory. fold matching.
  split. { apply firstn_le_length. }
  split. { now rewrite length_take, Array_sort_length. }
  split.
  { apply List.Forall_forall. intros n Hn.
    apply list_elem_of_In, elem_of_take in Hn as (i & Hi & _).
    apply list_elem_of_lookup_2, list_elem_of_In in Hi.
    apply Array_sort_In in Hi. apply filter_In in Hi as [Hin He].
    split; [now apply String.eqb_eq | now apply list_elem_of_In]. }
  split.
  { apply StronglySorted_take.
    exact (Array_sort_sorted _ createdTime matching Hc). }
  split.
  { intros t. etransitivity; [apply with_key_take|].
    now rewrite (Array_sort_stable _ createdTime t matching Hc). }
  exists (drop 3 (Array_sort HomeScreen.byCreatedAtDesc matching)). split.
  - rewrite take_drop. apply Array_sort_perm.
  - apply (StronglySorted_app_cross (key_desc createdTime)).
    rewrite take_drop.
    exact (Array_sort_sorted _ createdTime matching Hc).
Qed.

End Views.

(** ** The content input *)

(** The change handler alone: it takes a text of at most 200 characters and
    ignores a longer one. *)
Lemma handleContentChange_content (text : string) (st : NoteScreen.State) :
  NoteScreen.content (NoteScreen.handleContentChange text st)
  = if (String.length text <=? 200)%nat then text
    else NoteScreen.content st.
Proof.
  unfold NoteScreen.handleContentChange, MAX_CONTENT_LENGTH.
  destruct (String.length text <=? 200)%nat; [|reflexivity].
  now destruct (truthy_opt _).
Qed.

Lemma length_slice0_long (n : nat) (s : string) :
  (n <= String.length s)%nat -> String.length (slice0 n s) = n.
Proof.
  revert s. induction n as [|n IH]; intros [|c r]; simpl; intros H;
    try reflexivity; try lia.
  rewrite IH; [reflexivity | lia].
Qed.

Lemma slice0_short (n : nat) (s : string) :
  (String.length s <= n)%nat -> slice0 n s = s.
Proof.
  revert s. induction n as [|n IH]; intros [|c r]; simpl; intros H;
    try reflexivity; try lia.
  rewrite IH; [reflexivity | lia].
Qed.

(** C6. For every text entered at the content field, whatever the state:
    after the change handler has run, the content is the entered text when
    that has at most 200 characters, and is its first 200 characters
    otherwise - the text is truncated by the [maxLength] of the field, and
    the guard of the handler never rejects what the field hands over. The
    content then has at most 200 characters, exactly 200 after a
    truncation. *)
Theorem contentInput_truncates (text : string) (st : NoteScreen.State) :
  NoteScreen.content (NoteScreen.contentInput text st)
  = (if (String.length text <=? 200)%nat then text else slice0 200 text) /\
  NoteScreen.content (NoteScreen.contentInput text st) = slice0 200 text /\
  String.length (NoteScreen.content (NoteScreen.contentInput text st))
  = Nat.min 200 (String.length text) /\
  NoteScreen.error (NoteScreen.contentInput text st)
  = (if truthy_opt (NoteScreen.error st) then None else NoteScreen.error st).
Proof.
  assert (Ht : TextInput_maxLength MAX_CONTENT_LENGTH text = slice0 200 text).
  { unfold TextInput_maxLength, MAX_CONTENT_LENGTH.
    destruct (Nat.leb_spec (String.length text) 200);
      [now rewrite slice0_short | reflexivity]. }
  assert (Hl : String.length (slice0 200 text)
               = Nat.min 200 (String.length text)).
  { destruct (Nat.leb_spec (String.length text) 200).
    - rewrite slice0_short by assumption. lia.
    - rewrite length_slice0_long by lia. lia. }
  assert (Hrun : NoteScreen.contentInput text st
                 = if truthy_opt (NoteScreen.error st)
                   then NoteScreen.setError None
                          (NoteScreen.setContent (slice0 200 text) st)
                   else NoteScreen.setContent (slice0 200 text) st).
  { unfold NoteScreen.contentInput. rewrite Ht.
    unfold NoteScreen.handleContentChange, MAX_CONTENT_LENGTH.
    destruct (Nat.leb_spec (String.length (slice0 200 text)) 200);
      [reflexivity | lia]. }
  rewrite Hrun.
  assert (Hc : NoteScreen.content
                 (if truthy_opt (NoteScreen.error st)
                  then NoteScreen.setError None
                         (NoteScreen.setContent (slice0 200 text) st)
                  else NoteScreen.setContent (slice0 200 text) st)
               = slice0 200 text)
    by now destruct (truthy_opt (NoteScreen.error st)).
  rewrite Hc. split; [|split; [reflexivity | split; [exact Hl|]]].
  - destruct (Nat.leb_spec (String.length text) 200);
      [now apply slice0_short | reflexivity].
  - now destruct (truthy_opt (NoteScreen.error st)).
Qed.

(** ** Ids and the readings of the clock *)

Section IdReadings.
Context {P : Platform}.
Import NoteScreen.

(** [saveNote] always ends with a value; when it changes the stored value it
    has navigated Home and written [written p n prior]. *)
Lemma saveNote_outcome (p : RouteParams) (st : State) (w : World) :
  exists st' eff w',
    saveNote p st w = (Ok (st', eff), w') /\
    time w' = time w /\
    ((item w' = item w /\ eff <> Some (Navigate "Home")) \/
     (eff = Some (Navigate "Home") /\
      exists prior n w1,
        persisted w = Some prior /\
        newNote p st prior w = (Ok n, w1) /\
        item w' = Some (JSON_stringify (written p n prior)))).
Proof.
  destruct (truthy (trim (content st))) eqn:Hv.
  2:{ unfold saveNote. rewrite validateContent_rejects by exact Hv.
      simpl. unfold ret. eexists _, _, _. repeat split; auto;
        try (left; split; [reflexivity | discriminate]). }
  unfold saveNote. rewrite validateContent_ok by exact Hv.
  cbn [negb]. cbv iota.
  unfold try_catch, bind at 1. unfold AsyncStorage.getItem. cbv beta.
  destruct (reads_ok w) eqn:Hr; cbv iota.
  2:{ unfold ret. eexists _, _, _. repeat split; auto;
        try (left; split; [reflexivity | discriminate]). }
  unfold bind at 1. rewrite parse_stored_run.
  destruct (decode (item w)) as [prior|] eqn:Hp; cbv iota.
  2:{ unfold ret. eexists _, _, _. repeat split; auto;
        try (left; split; [reflexivity | discriminate]). }
  destruct (newNote_total p st prior w)
    as (n & w1 & Hn & Hi & Hr1 & Hw1 & Ht & Hle & _).
  unfold bind at 1. rewrite Hn. cbv iota.
  unfold bind, AsyncStorage.setItem, ret.
  destruct (writes_ok w1) eqn:Hw.
  - eexists _, _, _. split; [reflexivity|]. split; [exact Ht|].
    right. split; [reflexivity|]. exists prior, n, w1. repeat split; auto.
  - eexists _, _, _. split; [reflexivity|]. split; [exact Ht|].
    left. split; [exact Hi | discriminate].
Qed.

Lemma ids_read_nil (clock : nat -> Z) (seen : list nat) :
  ids_read clock seen [].
Proof.
  split; [constructor|]. intros x Hx. simpl in Hx.
  now apply elem_of_nil in Hx.
Qed.

Lemma ids_read_more (clock : nat -> Z) (seen seen' : list nat)
  (l : list Note.t) :
  (forall k, k ∈ seen -> k ∈ seen') ->
  ids_read clock seen l -> ids_read clock seen' l.
Proof.
  intros Hsub [Hnd Hb]. split; [exact Hnd|].
  intros x Hx. destruct (Hb x Hx) as (k & Hk & ->). eauto.
Qed.

Lemma ids_read_filter (clock : nat -> Z) (seen : list nat)
  (f : Note.t -> bool) (l : list Note.t) :
  ids_read clock seen l -> ids_read clock seen (List.filter f l).
Proof.
  intros [Hnd Hb]. split; [now apply NoDup_ids_filter|].
  intros x Hx. eapply Hb, ids_filter_subset, Hx.
Qed.

(** One action keeps the ids distinct, as long as the reading it takes for a
    new id, if any, differs from those taken before. *)
Lemma perform_ids_read (clock : nat -> Z) (seen : list nat)
  (act : App.Action) (a : App.t) :
  time (App.world a) = clock ->
  ids_read_in clock seen a ->
  (forall k, id_reading act a = Some k -> clock k ∉ map clock seen) ->
  time (App.world (App.perform act a)) = clock /\
  ids_read_in clock
    (match id_reading act a with Some k => seen ++ [k] | None => seen end)
    (App.perform act a).
Proof.
  intros Hclock (ns & Hst & Hns & Hhome) Hfresh.
  pose proof (stored_as_persisted _ _ Hst) as Hp.
  unfold ids_read_in.
  destruct act as [|p evs|nid| |r wr].
  - (* Focus *)
    simpl. rewrite HomeScreen_loadNotes_run. simpl.
    split; [exact Hclock|]. exists ns. repeat split; auto; try apply Hns.
    + destruct (reads_ok (App.world a)); [|constructor]. rewrite Hp. apply Hns.
    + destruct (reads_ok (App.world a));
        [rewrite Hp; apply Hns | intros x Hx; now apply elem_of_nil in Hx].
  - (* Session *)
    unfold id_reading in *. simpl App.perform.
    unfold App.session, bind in *.
    destruct (mount_run p initial (App.world a)) as (st0 & Hm & _).
    rewrite Hm in *.
    destruct (saveNote_outcome p (foldl App.handle st0 evs) (App.world a))
      as (st' & eff & w' & Hs & Ht & Hcase).
    rewrite Hs in *. simpl. rewrite Ht. split; [exact Hclock|].
    destruct Hcase as [[Hi Heff] | (-> & prior & n & w1 & Hp' & Hn & Hi)].
    + exists ns. split; [unfold stored_as; now rewrite Hi|].
      split; (eapply (ids_read_more clock seen); [|eassumption]);
        intros k Hk; destruct (truthy_opt (noteId p)); auto;
        destruct eff as [[]|]; auto; apply elem_of_app; now left.
    + rewrite Hp in Hp'. injection Hp' as <-.
      destruct (newNote_total p (foldl App.handle st0 evs) ns (App.world a))
        as (n' & w1' & Hn' & _ & _ & _ & _ & _ & _ & _ & Hid1 & Hid2).
      rewrite Hn in Hn'. injection Hn' as <- <-.
      exists (written p n ns). split; [right; exact Hi|].
      unfold written. destruct (truthy_opt (noteId p)) eqn:Htr.
      * split; [|exact Hhome]. destruct Hns as [Hnd Hb].
        split; rewrite map_replace_ids by (now apply Hid1); assumption.
      * destruct (Hid2 eq_refl) as [Hid _].
        specialize (Hfresh _ eq_refl).
        split.
        -- destruct Hns as [Hnd Hb]. split.
           ++ rewrite map_app. simpl. apply NoDup_app. split; [exact Hnd|].
              split; [|apply NoDup_singleton].
              intros x Hx Hx'. apply list_elem_of_singleton in Hx'. subst x.
              destruct (Hb _ Hx) as (k & Hk & Hk').
              rewrite Hid, Hclock in Hk'.
              apply Number_toString_inj in Hk'.
              apply Hfresh. rewrite Hk'.
              apply list_elem_of_fmap. eauto.
           ++ rewrite map_app. simpl. intros x Hx.
              apply elem_of_app in Hx as [Hx | Hx].
              ** destruct (Hb x Hx) as (k & Hk & ->). exists k.
                 split; [apply elem_of_app; now left | reflexivity].
              ** apply list_elem_of_singleton in Hx. subst x.
                 exists (reads (App.world a)).
                 split; [apply elem_of_app; right; apply list_elem_of_here|].
                 now rewrite Hid, Hclock.
        -- eapply ids_read_more; [|exact Hhome].
           intros k Hk. apply elem_of_app. now left.
  - (* Delete *)
    simpl.
    unfold HomeScreen.deleteNote, try_catch, bind, AsyncStorage.setItem, ret.
    destruct (writes_ok (App.world a)); simpl; (split; [exact Hclock|]).
    + eexists. split; [right; reflexivity|].
      split; now apply ids_read_filter.
    + exists ns. auto.
  - (* Clear *)
    simpl.
    unfold SettingsScreen.clearAllNotes, try_catch, bind,
      AsyncStorage.removeItem, ret.
    destruct (writes_ok (App.world a)); simpl; (split; [exact Hclock|]).
    + exists []. split; [now left|]. split; [apply ids_read_nil | exact Hhome].
    + exists ns. auto.
  - (* Env *)
    simpl. split; [exact Hclock|]. exists ns. auto.
Qed.

Lemma run_ids_read (clock : nat -> Z) (acts : list App.Action)
  (seen : list nat) (a : App.t) :
  time (App.world a) = clock ->
  ids_read_in clock seen a ->
  NoDup (map clock (seen ++ id_readings acts a)) ->
  ids_read_in clock (seen ++ id_readings acts a) (run acts a).
Proof.
  revert seen a. induction acts as [|act acts IH]; intros seen a Hc Hinv Hnd.
  - simpl. now rewrite app_nil_r.
  - simpl in *.
    assert (Hfresh : forall k, id_reading act a = Some k ->
                       clock k ∉ map clock seen).
    { intros k Hk. rewrite Hk in Hnd. rewrite map_app in Hnd. simpl in Hnd.
      apply NoDup_app in Hnd as (_ & Hdis & _).
      intros Hin. apply (Hdis _ Hin). apply list_elem_of_here. }
    destruct (perform_ids_read clock seen act a Hc Hinv Hfresh) as [Hc' Hinv'].
    destruct (id_reading act a) as [k|].
    + replace (seen ++ k :: id_readings acts (App.perform act a))
        with ((seen ++ [k]) ++ id_readings acts (App.perform act a))
        in * by now rewrite <- app_assoc.
      now apply IH.
    + now apply IH.
Qed.

(** Reachable states are the states of runs. *)
Lemma reachable_run (a : App.t) :
  App.reachable App.any_navigation a <->
  exists clock r wr acts, a = run acts (App.fresh clock r wr).
Proof.
  split.
  - induction 1 as [clock r wr | a act _ (clock & r & wr & acts & ->) _].
    + exists clock, r, wr, []. reflexivity.
    + exists clock, r, wr, (acts ++ [act]). unfold run.
      now rewrite foldl_app.
  - intros (clock & r & wr & acts & ->).
    induction acts as [|act acts IH] using rev_ind.
    + apply App.reach_fresh.
    + unfold run. rewrite foldl_app. simpl.
      apply App.reach_step; [exact IH | now destruct act].
Qed.

(** Two consecutive saves of new notes, in closed form. *)
Lemma two_new_saves (p1 p2 : RouteParams) (st1 st2 : State) (w : World)
  (prior : list Note.t) :
  reads_ok w = true -> writes_ok w = true ->
  persisted w = Some prior ->
  truthy_opt (noteId p1) = false -> truthy_opt (noteId p2) = false ->
  trim (content st1) <> "" -> trim (content st2) <> "" ->
  exists w1 w2 n1 n2,
    saveNote p1 st1 w
    = (Ok (setError None st1, Some (Navigate "Home")), w1) /\
    saveNote p2 st2 w1
    = (Ok (setError None st2, Some (Navigate "Home")), w2) /\
    persisted w2 = Some (prior ++ [n1; n2]) /\
    Note.id n1 = Number_toString (time w (reads w)) /\
    Note.id n2 = Number_toString (time w (3 + reads w)).
Proof.
  intros Hr Hw Hp H1 H2 Hv1 Hv2. apply truthy_true in Hv1, Hv2.
  destruct (saveNote_run p1 st1 w prior Hv1 Hr Hw Hp)
    as (n1 & w1 & Hn1 & Hi1 & Hr1 & Hw1 & Ht1 & Hs1).
  rewrite newNote_new in Hn1 by exact H1. injection Hn1 as <- <-.
  unfold written in Hs1. rewrite H1 in Hs1.
  match type of Hs1 with _ = (_, ?x) => set (w1 := x) in * end.
  assert (Hp1 : persisted w1 = Some (prior ++ [
                  Note.mk (Number_toString (time w (reads w))) (title st1)
                    (trim (content st1)) (selectedCategory st1)
                    (toISOString (time w (S (reads w))))
                    (toISOString (time w (S (S (reads w)))))])).
  { unfold persisted, w1. simpl. apply decode_stringify. }
  destruct (saveNote_run p2 st2 w1 _ Hv2 Hr Hw Hp1)
    as (n2 & w2 & Hn2 & Hi2 & Hr2 & Hw2 & Ht2 & Hs2).
  rewrite newNote_new in Hn2 by exact H2. injection Hn2 as <- <-.
  unfold written in Hs2. rewrite H2 in Hs2.
  eexists _, _, _, _. split; [exact Hs1|]. split; [exact Hs2|].
  split.
  { unfold persisted. cbn [item set_item]. rewrite decode_stringify.
    now rewrite <- app_assoc. }
  split; reflexivity.
Qed.

(** C4 (as amended). Along every run of the application from a fresh
    installation - saves of new notes, edits, deletes, clears, storage
    outages -, if the [Date.now()] readings taken for the ids of the new
    notes that were stored are pairwise distinct, the ids of the persisted
    collection are pairwise distinct, each being the decimal text of one of
    those readings. In particular two consecutive saves of new notes produce
    notes with different ids exactly when their two [Date.now()] readings
    differ. *)
Theorem ids_distinct_when_id_readings_distinct (clock : nat -> Z)
  (r wr : bool) (acts : list App.Action) (ns : list Note.t) :
  NoDup (map clock (id_readings acts (App.fresh clock r wr))) ->
  persisted (App.world (run acts (App.fresh clock r wr))) = Some ns ->
  NoDup (map Note.id ns) /\
  (forall x, x ∈ map Note.id ns ->
     exists k, k ∈ id_readings acts (App.fresh clock r wr) /\
               x = Number_toString (clock k)) /\
  (forall p1 p2 st1 st2 w prior,
     reads_ok w = true -> writes_ok w = true ->
     persisted w = Some prior ->
     truthy_opt (noteId p1) = false -> truthy_opt (noteId p2) = false ->
     trim (content st1) <> "" -> trim (content st2) <> "" ->
     exists w1 w2 n1 n2,
       saveNote p1 st1 w
       = (Ok (setError None st1, Some (Navigate "Home")), w1) /\
       saveNote p2 st2 w1
       = (Ok (setError None st2, Some (Navigate "Home")), w2) /\
       persisted w2 = Some (prior ++ [n1; n2]) /\
       (Note.id n1 <> Note.id n2 <->
        time w (reads w) <> time w (3 + reads w))).
Proof.
  intros Hnd Hp.
  assert (Hinv : ids_read_in clock
                   ([] ++ id_readings acts (App.fresh clock r wr))
                   (run acts (App.fresh clock r wr))).
  { apply run_ids_read; [reflexivity | | exact Hnd].
    exists []. split; [now left|]. split; apply ids_read_nil. }
  destruct Hinv as (ns' & Hst & [Hnd' Hb] & _).
  apply stored_as_persisted in Hst. rewrite Hp in Hst. injection Hst as <-.
  split; [exact Hnd'|]. split; [exact Hb|].
  intros p1 p2 st1 st2 w prior Hr Hw Hpw H1 H2 Hv1 Hv2.
  destruct (two_new_saves p1 p2 st1 st2 w prior Hr Hw Hpw H1 H2 Hv1 Hv2)
    as (w1 & w2 & n1 & n2 & Hs1 & Hs2 & Hp2 & Hi1 & Hi2).
  exists w1, w2, n1, n2. repeat split; auto.
  - intros Hne E. apply Hne. now rewrite Hi1, Hi2, E.
  - intros Hne E. apply Hne. rewrite Hi1, Hi2 in E.
    now apply Number_toString_inj.
Qed.

End IdReadings.

(** ** Invariants of the persisted collection *)

Section PersistedClaims.
Context {P : Platform}.
Import NoteScreen.



End PersistedClaims.

(** ** Concrete runs on the reference platform *)

Section RunLemmas.
Import NoteScreen Runs.

(** C1, at an input: the draft ["Buy milk"] saved to an empty store. *)
Lemma save_new_then_load_witness :
  exists (w' : World) (n : Note.t),
    saveNote no_params (draft "Buy milk") (empty_store ticking)
    = (Ok (setError None (draft "Buy milk"), Some (Navigate "Home")), w') /\
    HomeScreen.loadNotes w' = (Ok ([] ++ [n]), w') /\
    Note.content n = trim (content (draft "Buy milk")) /\
    Note.categoryId n = selectedCategory (draft "Buy milk") /\
    Note.title n = title (draft "Buy milk") /\
    Note.id n = Number_toString (ticking 0) /\
    Note.createdAt n = toISOString (ticking 1) /\
    Note.updatedAt n = toISOString (ticking 2) /\
    (Note.createdAt n = Note.updatedAt n <-> ticking 1 = ticking 2).
Proof.
  apply (save_new_then_load no_params (draft "Buy milk")
           (empty_store ticking) []);
    [reflexivity | reflexivity | reflexivity | reflexivity | simpl; lia].
Defined.

(** C1 as stated fails: the draft [" Buy milk "] is valid, and what is
    loaded after the save is one note whose content is not the content of
    the draft, and whose [createdAt] is not its [updatedAt]. *)
Lemma save_new_counterexample :
  (1 <= String.length (trim (content (draft " Buy milk "))) <= 200)%nat /\
  fst (HomeScreen.loadNotes
         (snd (saveNote no_params (draft " Buy milk ") (empty_store ticking))))
  = Ok [milk] /\
  Note.content milk <> content (draft " Buy milk ") /\
  Note.createdAt milk <> Note.updatedAt milk.
Proof.
  split; [simpl; lia|]. split; [vm_compute; reflexivity|].
  split; discriminate.
Qed.

(** C3, at an input: a save with the id ["42"], which no stored note has. *)
Lemma save_unknown_id_witness :
  newNote (mkParams (Some "42") None) (draft "hello") [milk] milk_store =
    (Ok (Note.mk "42" (title (draft "hello")) (trim (content (draft "hello")))
           (selectedCategory (draft "hello"))
           (toISOString (ticking 3)) (toISOString (ticking 4))),
     tick (tick milk_store)) /\
  exists w' : World,
    saveNote (mkParams (Some "42") None) (draft "hello") milk_store
    = (Ok (setError None (draft "hello"), Some (Navigate "Home")), w') /\
    HomeScreen.loadNotes w' = (Ok [milk], w').
Proof.
  apply (save_unknown_id_drops_note (mkParams (Some "42") None)
           (draft "hello") milk_store [milk] "42");
    [ reflexivity | reflexivity | vm_compute; reflexivity | reflexivity
    | discriminate | | simpl; lia ].
  simpl. rewrite elem_of_cons, elem_of_nil.
  intros [H | []]. discriminate.
Defined.

Lemma two_saves_reachable (clock : nat -> Z) :
  App.reachable App.any_navigation (two_saves clock).
Proof.
  unfold two_saves. repeat (apply App.reach_step; [|exact I]).
  apply App.reach_fresh.
Qed.

(** C4, at an input: two saves on a clock that moves every third reading,
    so that readings repeat while the two readings taken for ids differ. *)
Lemma ids_distinct_witness :
  NoDup
    (map Note.id
       [Note.mk "1000" "" "a" "work-study" "1000" "1000";
        Note.mk "1001" "" "b" "work-study" "1001" "1001"]) /\
  (forall x,
     x ∈ map Note.id
           [Note.mk "1000" "" "a" "work-study" "1000" "1000";
            Note.mk "1001" "" "b" "work-study" "1001" "1001"] ->
     exists k, k ∈ id_readings two_sessions (App.fresh millisecond true true)
               /\ x = Number_toString (millisecond k)) /\
  (forall p1 p2 st1 st2 w prior,
     reads_ok w = true -> writes_ok w = true ->
     persisted w = Some prior ->
     truthy_opt (noteId p1) = false -> truthy_opt (noteId p2) = false ->
     trim (content st1) <> "" -> trim (content st2) <> "" ->
     exists w1 w2 n1 n2,
       saveNote p1 st1 w
       = (Ok (setError None st1, Some (Navigate "Home")), w1) /\
       saveNote p2 st2 w1
       = (Ok (setError None st2, Some (Navigate "Home")), w2) /\
       persisted w2 = Some (prior ++ [n1; n2]) /\
       (Note.id n1 <> Note.id n2 <->
        time w (reads w) <> time w (3 + reads w))).
Proof.
  apply (ids_distinct_when_id_readings_distinct millisecond true true
           two_sessions);
    [ apply (bool_decide_unpack _); vm_compute; exact I
    | vm_compute; reflexivity ].
Defined.

(** The [millisecond] clock repeats readings. *)
Lemma millisecond_repeats : ~ distinct_readings millisecond.
Proof. intros H. specialize (H 0%nat 1%nat eq_refl). discriminate. Qed.


(** C4 as stated fails: two consecutive saves of new notes on a clock that
    was set back in between persist two notes with the same id. *)
Lemma ids_distinct_counterexample :
  App.reachable App.any_navigation (two_saves set_back) /\
  persisted (App.world (two_saves set_back))
  = Some [Note.mk "1000" "" "a" "work-study" "1001" "1002";
          Note.mk "1000" "" "b" "work-study" "1001" "1002"] /\
  ~ NoDup (map Note.id
             [Note.mk "1000" "" "a" "work-study" "1001" "1002";
              Note.mk "1000" "" "b" "work-study" "1001" "1002"]).
Proof.
  split; [apply two_saves_reachable|].
  split; [vm_compute; reflexivity|].
  simpl. intros H. apply NoDup_cons in H as [H _]. apply H.
  apply list_elem_of_here.
Qed.

(** The field at 201 characters: the content is the first 200. *)
Lemma contentInput_too_long :
  String.length too_long = 201%nat /\
  content (contentInput too_long initial) = slice0 200 too_long /\
  String.length (content (contentInput too_long initial)) = 200%nat.
Proof. repeat split. Qed.

(** C7, at an input: the store holds [milk]. *)
Lemma count_by_category_witness :
  exists counts : gmap string nat,
    SummaryScreen.loadNotes milk_store = (Ok ([milk], counts), milk_store) /\
    (forall c, c ∈ CATEGORIES ->
       SummaryScreen.shownCount counts c = count_in (Category.id c) [milk]) /\
    (truthy_opt (item milk_store) = true ->
     forall c, c ∈ CATEGORIES ->
       counts !! Category.id c = Some (count_in (Category.id c) [milk])) /\
    (Forall category_known [milk] ->
     sum_list (map (SummaryScreen.shownCount counts) CATEGORIES)
     = length [milk]).
Proof.
  apply (count_by_category milk_store [milk]);
    [reflexivity | vm_compute; reflexivity].
Defined.

(** C8, at an input: three notes of one category. *)
Lemma latest_notes_witness :
  let matching :=
    List.filter (fun n => (Note.categoryId n =? "life")%string) three_life in
  let r := HomeScreen.getLatestNotesForCategory three_life "life" in
  (length r <= 3)%nat /\
  length r = Nat.min 3 (length matching) /\
  Forall (fun n => Note.categoryId n = "life" /\ n ∈ three_life) r /\
  StronglySorted (fun a b => (createdTime b <= createdTime a)%Z) r /\
  (forall t,
     with_key createdTime t r `prefix_of` with_key createdTime t matching) /\
  (exists rest,
     Permutation (r ++ rest) matching /\
     Forall (fun n => Forall (fun m => (createdTime m <= createdTime n)%Z)
                        rest) r).
Proof.
  apply (latest_notes_for_category three_life "life").
  repeat constructor; vm_compute; eauto.
Defined.

(** C8 as stated fails: with the limit 2 and three notes in the category,
    three notes are returned. *)
Lemma latest_notes_counterexample :
  HomeScreen.getLatestNotesForCategory three_life "life"
  = [life "2" "30"; life "3" "20"; life "1" "10"] /\
  ~ (length (HomeScreen.getLatestNotesForCategory three_life "life") <= 2)%nat.
Proof.
  split; [vm_compute; reflexivity|].
  vm_compute. lia.
Qed.




End RunLemmas.

(** * Further properties of the screens *)

(** ** Deleting and clearing *)

Section DeleteClear.
Context {P : Platform}.

Lemma filter_other_ids_delete (l : list Note.t) (i : nat) (x : Note.t) :
  NoDup (map Note.id l) -> l !! i = Some x ->
  List.filter (fun n => negb (Note.id n =? Note.id x)%string) l = delete i l.
Proof.
  revert i. induction l as [|y l IH]; intros i Hnd Hi; [discriminate|].
  simpl in Hnd. apply NoDup_cons in Hnd as [Hy Hnd].
  destruct i as [|i]; simpl in *.
  - injection Hi as ->. rewrite String.eqb_refl. simpl.
    clear IH. induction l as [|u l IHl]; [reflexivity|]. simpl in *.
    apply not_elem_of_cons in Hy as [Hu Hy].
    apply NoDup_cons in Hnd as [_ Hnd].
    destruct (String.eqb_spec (Note.id u) (Note.id x)); [congruence|].
    simpl. f_equal. now apply IHl.
  - destruct (String.eqb_spec (Note.id y) (Note.id x)) as [E|_].
    + exfalso. apply Hy. rewrite E. apply list_elem_of_fmap.
      exists x. split; [reflexivity|]. eapply list_elem_of_lookup_2; eauto.
    + simpl. f_equal. eauto.
Qed.

Lemma filter_other_ids_absent (l : list Note.t) (k : string) :
  k ∉ map Note.id l ->
  List.filter (fun n => negb (Note.id n =? k)%string) l = l.
Proof.
  induction l as [|y l IH]; intros H; [reflexivity|]. simpl in *.
  apply not_elem_of_cons in H as [Hy H].
  destruct (String.eqb_spec (Note.id y) k); [congruence|].
  simpl. f_equal. now apply IH.
Qed.

Lemma filter_other_ids_gone (l : list Note.t) (k : string) :
  k ∉ map Note.id (List.filter (fun n => negb (Note.id n =? k)%string) l).
Proof.
  intros H. apply list_elem_of_fmap in H as (z & -> & Hz).
  apply list_elem_of_In, filter_In in Hz as [_ Hz].
  rewrite String.eqb_refl in Hz. discriminate.
Qed.

(** X1. Deleting the note at index [i] of the Home screen's notes, whose
    ids are distinct, while the store accepts writes: no alert, the notes
    state becomes the notes without index [i] (one fewer, the others in
    order, the id gone), and the store now holds exactly that array,
    whatever it held before. *)
Theorem deleteNote_present (notes : list Note.t) (i : nat) (x : Note.t)
  (w : World) :
  writes_ok w = true ->
  NoDup (map Note.id notes) ->
  notes !! i = Some x ->
  HomeScreen.deleteNote notes (Note.id x) w
  = (Ok (delete i notes, None),
     set_item (Some (JSON_stringify (delete i notes))) w) /\
  S (length (delete i notes)) = length notes /\
  (Note.id x ∉ map Note.id (delete i notes)) /\
  persisted (set_item (Some (JSON_stringify (delete i notes))) w)
  = Some (delete i notes).
Proof.
  intros Hw Hnd Hi.
  unfold HomeScreen.deleteNote, try_catch, bind, AsyncStorage.setItem, ret.
  rewrite Hw, (filter_other_ids_delete notes i x Hnd Hi).
  split; [reflexivity|]. split.
  { rewrite length_delete by eauto.
    apply lookup_lt_Some in Hi. lia. }
  split.
  { rewrite <- (filter_other_ids_delete notes i x Hnd Hi).
    apply filter_other_ids_gone. }
  unfold persisted. simpl. apply decode_stringify.
Qed.

(** X2. Deleting is idempotent and harmless for an absent id. While the
    store accepts writes, a delete leaves no note of the id in the notes
    state and writes the text of the new notes state to the store; a second
    delete of the same id, from there, returns the same notes and writes the
    same text again, so the world is what it was; and deleting an id that no
    note has leaves the notes as they were, the array still being written
    back. *)
Theorem deleteNote_twice (notes : list Note.t) (noteId : string) (w : World) :
  writes_ok w = true ->
  exists ns : list Note.t,
    HomeScreen.deleteNote notes noteId w
    = (Ok (ns, None), set_item (Some (JSON_stringify ns)) w) /\
    HomeScreen.deleteNote ns noteId (set_item (Some (JSON_stringify ns)) w)
    = (Ok (ns, None), set_item (Some (JSON_stringify ns)) w) /\
    item (set_item (Some (JSON_stringify ns)) w)
    = Some (JSON_stringify ns) /\
    persisted (set_item (Some (JSON_stringify ns)) w) = Some ns /\
    (noteId ∉ map Note.id ns) /\
    (forall n, n ∈ ns <-> n ∈ notes /\ Note.id n <> noteId) /\
    (noteId ∉ map Note.id notes -> ns = notes).
Proof.
  intros Hw.
  unfold HomeScreen.deleteNote, try_catch, bind, AsyncStorage.setItem, ret.
  rewrite Hw. eexists. split; [reflexivity|]. simpl. rewrite Hw.
  split.
  { rewrite (filter_other_ids_absent _ noteId)
      by apply filter_other_ids_gone.
    reflexivity. }
  split; [reflexivity|].
  split. { unfold persisted. simpl. apply decode_stringify. }
  split; [apply filter_other_ids_gone|].
  split; [|apply filter_other_ids_absent].
  intros n. rewrite !list_elem_of_In, filter_In, negb_true_iff.
  rewrite String.eqb_neq. reflexivity.
Qed.

(** X3. While the store rejects writes, no handler changes the stored
    value: a delete alerts and keeps the notes state, a clear alerts, and a
    save never navigates Home. *)
Theorem write_failure_keeps_store (w : World) :
  writes_ok w = false ->
  (forall notes noteId,
     HomeScreen.deleteNote notes noteId w
     = (Ok (notes, Some (Alert "Error" "Failed to delete note")), w)) /\
  SettingsScreen.clearAllNotes w
  = (Ok (Alert "Error" "Failed to delete notes"), w) /\
  (forall p st, exists st' eff w',
     NoteScreen.saveNote p st w = (Ok (st', eff), w') /\
     item w' = item w /\
     eff <> Some (Navigate "Home")).
Proof.
  intros Hw. split; [|split].
  - intros notes noteId.
    unfold HomeScreen.deleteNote, try_catch, bind, AsyncStorage.setItem, ret.
    now rewrite Hw.
  - unfold SettingsScreen.clearAllNotes, try_catch, bind,
      AsyncStorage.removeItem, ret.
    now rewrite Hw.
  - intros p st.
    destruct (truthy (trim (NoteScreen.content st))) eqn:Hv.
    2:{ unfold NoteScreen.saveNote.
        rewrite validateContent_rejects by exact Hv.
        simpl. unfold ret. eexists _, _, _. repeat split. discriminate. }
    unfold NoteScreen.saveNote. rewrite validateContent_ok by exact Hv.
    cbn [negb]. cbv iota.
    unfold try_catch, bind at 1. unfold AsyncStorage.getItem. cbv beta.
    destruct (reads_ok w) eqn:Hr; cbv iota.
    2:{ unfold ret. eexists _, _, _. repeat split. discriminate. }
    unfold bind at 1. rewrite parse_stored_run.
    destruct (decode (item w)) as [prior|] eqn:Hp; cbv iota.
    2:{ unfold ret. eexists _, _, _. repeat split. discriminate. }
    destruct (newNote_total p st prior w)
      as (n & w1 & Hn & Hi & Hr1 & Hw1 & Ht & Hle & _).
    unfold bind at 1. rewrite Hn. cbv iota.
    unfold bind, AsyncStorage.setItem, ret.
    rewrite Hw1, Hw. eexists _, _, _. repeat split; [exact Hi|discriminate].
Qed.

(** X4. Clearing while the store accepts writes removes the key, whatever
    it held (a text that does not parse included): the popup is shown, and
    afterwards the Home screen loads no notes and every card of the Summary
    screen shows zero. *)
Theorem clearAllNotes_then_load (w : World) :
  writes_ok w = true ->
  SettingsScreen.clearAllNotes w
  = (Ok (ClearedPopupThenNavigate "Home"), set_item None w) /\
  HomeScreen.loadNotes (set_item None w) = (Ok [], set_item None w) /\
  exists counts,
    SummaryScreen.loadNotes (set_item None w)
    = (Ok ([], counts), set_item None w) /\
    forall c, SummaryScreen.shownCount counts c = 0%nat.
Proof.
  intros Hw. split; [|split].
  - unfold SettingsScreen.clearAllNotes, try_catch, bind,
      AsyncStorage.removeItem, ret.
    now rewrite Hw.
  - rewrite HomeScreen_loadNotes_run. simpl.
    now destruct (reads_ok w).
  - rewrite SummaryScreen_loadNotes_run. simpl.
    exists ∅. split; [now destruct (reads_ok w)|].
    intros c. unfold SummaryScreen.shownCount. now rewrite lookup_empty.
Qed.

End DeleteClear.

(** ** Saves that do not go through, and edits *)

Section SaveEdges.
Context {P : Platform}.
Import NoteScreen.

(** X5. A draft whose content is empty or only white space is rejected:
    [saveNote] sets the error ['Note content is required'], does not
    navigate or alert, and leaves the whole world untouched - the store is
    not read and the clock is not consulted. *)
Theorem saveNote_blank_rejected (p : RouteParams) (st : State) (w : World) :
  trim (content st) = "" ->
  saveNote p st w
  = (Ok (setError (Some "Note content is required") st, None), w).
Proof.
  intros H. unfold saveNote.
  rewrite validateContent_rejects by now apply truthy_false.
  reflexivity.
Qed.

(** X6. The Save button is disabled exactly when [validateContent] fails,
    and the only error [validateContent] ever sets is ['Note content is
    required']: its second check, on [MIN_CONTENT_LENGTH], never fires.
    [validateContent] changes no field of the state other than the error. *)
Theorem validateContent_matches_button (st : State) :
  validateContent st
  = (negb (saveDisabled st),
     setError
       (if saveDisabled st then Some "Note content is required" else None)
       st).
Proof.
  unfold saveDisabled.
  destruct (truthy (trim (content st))) eqn:Hv.
  - now rewrite validateContent_ok by exact Hv.
  - now rewrite validateContent_rejects by exact Hv.
Qed.

(** X7. A valid draft over a store that cannot be read, or that holds a
    text that does not parse: [saveNote] alerts ['Failed to save note.
    Please try again.'] and leaves the whole world untouched; the clock is
    not read and nothing is written. *)
Theorem saveNote_unreadable_store (p : RouteParams) (st : State) (w : World) :
  trim (content st) <> "" ->
  reads_ok w = false \/ persisted w = None ->
  saveNote p st w
  = (Ok (setError None st,
         Some (Alert "Error" "Failed to save note. Please try again.")), w).
Proof.
  intros Hv Hbad. apply truthy_true in Hv.
  unfold saveNote. rewrite validateContent_ok by exact Hv.
  cbn [negb]. cbv iota.
  unfold try_catch, bind at 1. unfold AsyncStorage.getItem. cbv beta.
  destruct (reads_ok w) eqn:Hr; cbv iota; [|reflexivity].
  destruct Hbad as [? | Hp]; [discriminate|].
  unfold bind at 1. rewrite parse_stored_run.
  unfold persisted in Hp. now rewrite Hp.
Qed.

Lemma written_edit_lookup (p : RouteParams) (n : Note.t)
  (notes : list Note.t) (nid : string) (j : nat) :
  noteId p = Some nid -> nid <> "" ->
  written p n notes !! j
  = match notes !! j with
    | Some m => Some (if (Note.id m =? nid)%string then n else m)
    | None => None
    end.
Proof.
  intros Hid Hne. unfold written. rewrite Hid. simpl.
  replace (truthy nid) with true by (symmetry; now apply truthy_true).
  rewrite list_lookup_fmap. now destruct (notes !! j).
Qed.

(** X8. An edit over any stored collection, duplicates of the id included:
    after a valid save with a non-empty [noteId] over a working store, the
    stored collection has the same length and the same ids in the same
    order; every note that carries the id is replaced by one and the same
    new note, and every other note is unchanged. *)
Theorem saveNote_edit_shape (p : RouteParams) (st : State) (w : World)
  (prior : list Note.t) (nid : string) :
  reads_ok w = true -> writes_ok w = true ->
  persisted w = Some prior ->
  noteId p = Some nid -> nid <> "" ->
  trim (content st) <> "" ->
  exists (w' : World) (after : list Note.t) (n : Note.t),
    saveNote p st w = (Ok (setError None st, Some (Navigate "Home")), w') /\
    persisted w' = Some after /\
    length after = length prior /\
    map Note.id after = map Note.id prior /\
    Note.id n = nid /\
    Note.content n = trim (content st) /\
    (forall j m, prior !! j = Some m ->
       after !! j = Some (if (Note.id m =? nid)%string then n else m)).
Proof.
  intros Hr Hw Hp Hid Hne Hv. apply truthy_true in Hv.
  destruct (saveNote_run p st w prior Hv Hr Hw Hp)
    as (n & w1 & Hn & Hi1 & Hr1 & Hw1 & Ht & Hs).
  destruct (newNote_total p st prior w)
    as (n' & w1' & Hn' & _ & _ & _ & _ & _ & Hc & _ & Hid1 & _).
  rewrite Hn in Hn'. injection Hn' as <- <-.
  assert (Hidn : Note.id n = nid).
  { rewrite Hid1; rewrite Hid; simpl;
      replace (truthy nid) with true by (symmetry; now apply truthy_true);
      reflexivity. }
  eexists _, (written p n prior), n. split; [exact Hs|].
  split. { unfold persisted. simpl. apply decode_stringify. }
  assert (Hmap : written p n prior
                 = map (fun note => if (Note.id note =? nid)%string
                                    then n else note) prior).
  { unfold written. rewrite Hid. simpl.
    now replace (truthy nid) with true
      by (symmetry; now apply truthy_true). }
  split. { now rewrite Hmap, length_map. }
  split. { rewrite Hmap. now apply map_replace_ids. }
  split; [exact Hidn|]. split; [exact Hc|].
  intros j m Hj. rewrite (written_edit_lookup p n prior nid j Hid Hne).
  now rewrite Hj.
Qed.

(** X9. The application never stores a text it cannot read back: in every
    reachable state the stored value is absent or parses. So in a reachable
    state whose store works, a save of a valid draft always goes through and
    navigates Home. *)
Theorem reachable_store_parses (a : App.t) (p : RouteParams) (st : State) :
  App.reachable App.any_navigation a ->
  (exists ns, persisted (App.world a) = Some ns) /\
  (reads_ok (App.world a) = true -> writes_ok (App.world a) = true ->
   trim (content st) <> "" ->
   exists w', saveNote p st (App.world a)
              = (Ok (setError None st, Some (Navigate "Home")), w')).
Proof.
  intros Hreach.
  assert (Hp : exists ns, persisted (App.world a) = Some ns).
  { destruct (reachable_holds App.any_navigation (fun _ _ _ => True))
      with (a := a) as (ns & Hst & _); auto.
    exists ns. now apply stored_as_persisted. }
  split; [exact Hp|]. intros Hr Hw Hv. destruct Hp as [ns Hp].
  apply truthy_true in Hv.
  destruct (saveNote_run p st (App.world a) ns Hv Hr Hw Hp)
    as (n & w1 & _ & _ & _ & _ & _ & Hs).
  eauto.
Qed.

End SaveEdges.

(** ** Opening a note, and what the form can hold *)

Section NoteForm.
Context {P : Platform}.
Import NoteScreen.

Lemma length_trimStart (s : string) :
  (String.length (trimStart s) <= String.length s)%nat.
Proof.
  induction s as [|c r IH]; simpl; [lia|].
  destruct (isWhiteSpace c); simpl; lia.
Qed.

Lemma length_trimEnd (s : string) :
  (String.length (trimEnd s) <= String.length s)%nat.
Proof.
  induction s as [|c r IH]; simpl; [lia|].
  destruct (trimEnd r); [destruct (isWhiteSpace c)|]; simpl in *; lia.
Qed.

Lemma length_trim (s : string) :
  (String.length (trim s) <= String.length s)%nat.
Proof.
  unfold trim. pose proof (length_trimEnd (trimStart s)).
  pose proof (length_trimStart s). lia.
Qed.

(** Mounting with the id of a stored note fills the form from that note. *)
Lemma mount_found (c : option string) (st : State) (w : World)
  (ns : list Note.t) (i : nat) (note : Note.t) :
  reads_ok w = true -> persisted w = Some ns ->
  NoDup (map Note.id ns) -> ns !! i = Some note -> Note.id note <> "" ->
  mount (mkParams (Some (Note.id note)) c) st w
  = (Ok (mkState (Note.title note) (Note.content note)
           (Note.categoryId note) (dropdownOpen st) (error st)), w).
Proof.
  intros Hr Hp Hnd Hi Hne. unfold mount. simpl.
  replace (truthy (Note.id note)) with true
    by (symmetry; now apply truthy_true).
  set (st1 := match c with
              | Some c0 => if truthy c0 then setSelectedCategory c0 st else st
              | None => st
              end).
  assert (H1 : dropdownOpen st1 = dropdownOpen st /\ error st1 = error st).
  { subst st1. destruct c as [c0|]; [|now split].
    destruct (truthy c0); now split. }
  unfold loadNote, try_catch, bind, AsyncStorage.getItem. rewrite Hr.
  unfold persisted, decode in Hp.
  destruct (item w) as [s|]; [|injection Hp as <-; discriminate].
  destruct (truthy s); [|injection Hp as <-; discriminate].
  unfold JSON_parse_M. rewrite Hp. unfold ret at 1.
  rewrite (find_id_unique ns i note Hnd Hi). unfold ret.
  destruct H1 as [Hd He].
  unfold setSelectedCategory, setContent, setTitle. simpl.
  now rewrite Hd, He.
Qed.

(** X10. Opening the Note screen with the id of a stored note (distinct
    ids, readable store) fills the form with the title, content and
    category of that note; a [categoryId] route parameter given at the same
    time is overridden by the category of the note. The store is not
    changed. *)
Theorem mount_loads_note (c : option string) (st : State) (w : World)
  (ns : list Note.t) (i : nat) (note : Note.t) :
  reads_ok w = true -> persisted w = Some ns ->
  NoDup (map Note.id ns) -> ns !! i = Some note -> Note.id note <> "" ->
  exists st',
    mount (mkParams (Some (Note.id note)) c) st w = (Ok st', w) /\
    title st' = Note.title note /\
    content st' = Note.content note /\
    selectedCategory st' = Note.categoryId note /\
    error st' = error st.
Proof.
  intros Hr Hp Hnd Hi Hne. eexists. split.
  - now apply (mount_found c st w ns i note).
  - repeat split.
Qed.

(** X11. Round trip of a new note: after a valid draft was saved as a new
    note (working store, distinct stored ids, the new id not among them),
    opening the Note screen with the new id shows the draft's title, its
    TRIMMED content and its category. *)
Theorem save_then_open (p : RouteParams) (st : State) (w : World)
  (prior : list Note.t) :
  reads_ok w = true -> writes_ok w = true ->
  persisted w = Some prior ->
  truthy_opt (noteId p) = false ->
  trim (content st) <> "" ->
  NoDup (map Note.id prior) ->
  Number_toString (now w) ∉ map Note.id prior ->
  exists (w' : World) (st' : State),
    saveNote p st w = (Ok (setError None st, Some (Navigate "Home")), w') /\
    mount (mkParams (Some (Number_toString (now w))) None) initial w'
    = (Ok st', w') /\
    title st' = title st /\
    content st' = trim (content st) /\
    selectedCategory st' = selectedCategory st.
Proof.
  intros Hr Hw Hp Hid Hv Hnd Hfresh. apply truthy_true in Hv.
  destruct (saveNote_run p st w prior Hv Hr Hw Hp)
    as (n & w1 & Hn & Hi & Hr1 & Hw1 & Ht & Hs).
  rewrite newNote_new in Hn by exact Hid. injection Hn as <- <-.
  eexists _, _. split; [exact Hs|].
  unfold written. rewrite Hid.
  set (n := Note.mk (Number_toString (time w (reads w))) (title st)
              (trim (content st)) (selectedCategory st)
              (toISOString (time w (S (reads w))))
              (toISOString (time w (S (S (reads w)))))).
  split.
  - apply (mount_found None initial _ (prior ++ [n]) (length prior) n).
    + exact Hr.
    + unfold persisted. simpl. apply decode_stringify.
    + rewrite map_app. simpl. apply NoDup_app. split; [exact Hnd|].
      split; [|apply NoDup_singleton].
      intros x Hx Hx'. apply list_elem_of_singleton in Hx'. subst x.
      now apply Hfresh.
    + rewrite lookup_app_r by lia. now rewrite Nat.sub_diag.
    + apply Number_toString_nonempty.
  - repeat split.
Qed.

Lemma handle_content (st : State) (ev : App.NoteEvent) :
  content (App.handle st ev) = content st \/
  (String.length (content (App.handle st ev)) <= 200)%nat.
Proof.
  destruct ev as [text| |i]; simpl.
  - unfold handleContentChange, MAX_CONTENT_LENGTH.
    destruct (Nat.leb_spec (String.length text) 200); [|now left].
    right. now destruct (truthy_opt _).
  - now left.
  - destruct (dropdownOpen st); [|now left].
    destruct (CATEGORIES !! i); now left.
Qed.

Lemma foldl_handle_content (evs : list App.NoteEvent) (st : State) :
  content (foldl App.handle st evs) = content st \/
  (String.length (content (foldl App.handle st evs)) <= 200)%nat.
Proof.
  revert st. induction evs as [|ev evs IH]; intros st; simpl; [now left|].
  destruct (IH (App.handle st ev)) as [E|H]; [|now right].
  rewrite E. apply handle_content.
Qed.

Lemma mount_content (p : RouteParams) (st : State) (w : World) :
  exists st',
    mount p st w = (Ok st', w) /\
    (content st' = content st \/
     exists ns note, persisted w = Some ns /\ note ∈ ns /\
       content st' = Note.content note).
Proof.
  unfold mount.
  set (st1 := match categoryId p with
              | Some c => if truthy c then setSelectedCategory c st else st
              | None => st
              end).
  assert (H1 : content st1 = content st).
  { subst st1. destruct (categoryId p) as [c|]; [|reflexivity].
    now destruct (truthy c). }
  destruct (noteId p) as [i|]; [|unfold ret; exists st1; auto].
  destruct (truthy i); [|unfold ret; exists st1; auto].
  destruct (loadNote_run i st1 w)
    as (st' & Hl & [-> | (ns & note & Hp & Hin & ->)]).
  - exists st1. auto.
  - eexists. split; [exact Hl|]. right. exists ns, note. auto.
Qed.

Lemma session_content_bounded (p : RouteParams) (evs : list App.NoteEvent)
  (w : World) (ns : list Note.t) (st0 : State) :
  persisted w = Some ns -> Forall content_bounded ns ->
  mount p initial w = (Ok st0, w) ->
  (String.length (content (foldl App.handle st0 evs)) <= 200)%nat.
Proof.
  intros Hp Hb Hm.
  destruct (foldl_handle_content evs st0) as [-> | H]; [|exact H].
  destruct (mount_content p initial w) as (st0' & Hm' & Hc).
  rewrite Hm in Hm'. injection Hm' as <-.
  destruct Hc as [-> | (l & note & Hl & Hin & ->)]; [simpl; lia|].
  rewrite Hp in Hl. injection Hl as <-.
  rewrite Forall_forall in Hb. now apply Hb.
Qed.

Lemma reachable_content_bounded (a : App.t) (ns : list Note.t) :
  App.reachable App.any_navigation a ->
  persisted (App.world a) = Some ns ->
  Forall content_bounded ns.
Proof.
  apply (reachable_persisted App.any_navigation
           (fun _ _ => Forall content_bounded)).
  - constructor.
  - auto.
  - intros _ _ l f. apply Forall_filter_keep.
  - intros p evs w l st0 n w1 _ Hper Hl Hm _ Hn.
    apply Forall_written; [|exact Hl].
    destruct (newNote_total p (foldl App.handle st0 evs) l w)
      as (n' & w1' & Hn' & _ & _ & _ & _ & _ & Hc & _).
    rewrite Hn in Hn'. injection Hn' as <- <-.
    unfold content_bounded. rewrite Hc.
    pose proof (length_trim (content (foldl App.handle st0 evs))).
    pose proof (session_content_bounded p evs w l st0 Hper Hl Hm). lia.
Qed.

(** X12. Content never exceeds 200 characters. In every reachable state
    every persisted note has a content of at most 200 characters; and
    however the Note screen is opened from such a state and whatever the
    user types, the character counter never shows more than 200. *)
Theorem content_never_exceeds_200 (a : App.t) (ns : list Note.t) :
  App.reachable App.any_navigation a ->
  persisted (App.world a) = Some ns ->
  Forall (fun n => (String.length (Note.content n) <= 200)%nat) ns /\
  (forall p evs, exists st0,
     mount p initial (App.world a) = (Ok st0, App.world a) /\
     (charCount (foldl App.handle st0 evs) <= 200)%nat).
Proof.
  intros Hr Hp.
  pose proof (reachable_content_bounded a ns Hr Hp) as Hb.
  split; [exact Hb|]. intros p evs.
  destruct (mount_content p initial (App.world a)) as (st0 & Hm & _).
  exists st0. split; [exact Hm|].
  exact (session_content_bounded p evs _ ns st0 Hp Hb Hm).
Qed.

Lemma dropdownText_known (st : State) (c : Category.t) :
  c ∈ CATEGORIES -> selectedCategory st = Category.id c ->
  dropdownText st = Category.name c.
Proof.
  unfold CATEGORIES. rewrite !elem_of_cons, elem_of_nil.
  unfold dropdownText, CATEGORIES.
  intros [-> | [-> | [-> | []]]] ->; reflexivity.
Qed.

Lemma dropdownText_unknown (st : State) :
  selectedCategory st ∉ category_ids ->
  dropdownText st = "Choose a category".
Proof.
  unfold dropdownText, category_ids, CATEGORIES. cbn [map Category.id].
  rewrite !not_elem_of_cons. intros (H1 & H2 & H3 & _).
  apply not_eq_sym, String.eqb_neq in H1, H2, H3.
  cbn [find Category.id]. now rewrite H1, H2, H3.
Qed.

(** X13. The dropdown header. It shows ['Choose a category'] whenever the
    selected category is none of the fixed ids. In a state reachable with
    route parameters of known category, however the Note screen is opened
    (known category) and whatever the user does, the selected category is a
    fixed one and the header shows its name. *)
Theorem dropdownText_names_category (a : App.t) (p : RouteParams)
  (evs : list App.NoteEvent) :
  App.reachable App.known_category a ->
  App.known_category p ->
  (forall st, selectedCategory st ∉ category_ids ->
     dropdownText st = "Choose a category") /\
  exists st0 c,
    mount p initial (App.world a) = (Ok st0, App.world a) /\
    c ∈ CATEGORIES /\
    selectedCategory (foldl App.handle st0 evs) = Category.id c /\
    dropdownText (foldl App.handle st0 evs) = Category.name c.
Proof.
  intros Hr Hp. split; [exact dropdownText_unknown|].
  destruct (mount_run p initial (App.world a)) as (st0 & Hm & Hsel).
  assert (Hk : selectedCategory (foldl App.handle st0 evs) ∈ category_ids).
  { destruct (foldl_handle_selectedCategory evs st0) as [-> | H]; [|exact H].
    destruct Hsel as [-> | [(c & Hc1 & Hc2 & ->) | (l & note & Hl & Hin & ->)]].
    - apply CATEGORIES_0_id_known.
    - unfold App.known_category in Hp. rewrite Hc1 in Hp.
      destruct Hp; [contradiction | assumption].
    - pose proof (reachable_category_known a l Hr Hl) as Hf.
      rewrite Forall_forall in Hf. now apply Hf. }
  unfold category_ids in Hk. apply list_elem_of_fmap in Hk as (c & Hc & Hin).
  exists st0, c. repeat split; auto.
  now apply dropdownText_known.
Qed.

End NoteForm.

(** ** What the Home and Summary screens show *)

Section Shown.
Context {P : Platform}.

Lemma length_slice0 (n : nat) (s : string) :
  (String.length (slice0 n s) <= n)%nat.
Proof.
  revert s. induction n as [|n IH]; intros [|c r]; simpl; try lia.
  specialize (IH r). lia.
Qed.

Lemma length_string_app (a b : string) :
  String.length (a +:+ b) = (String.length a + String.length b)%nat.
Proof.
  induction a as [|x a IH]; [reflexivity|].
  change (String x a +:+ b) with (String x (a +:+ b)). simpl. now rewrite IH.
Qed.

Lemma rowText_length (note : Note.t) :
  (String.length (HomeScreen.rowText note) <= 23)%nat /\
  ((String.length (Note.content note) <= 20)%nat ->
   HomeScreen.rowText note = Note.content note).
Proof.
  unfold HomeScreen.rowText.
  destruct (Nat.ltb_spec 20 (String.length (Note.content note))).
  - split; [|lia]. rewrite length_string_app.
    pose proof (length_slice0 20 (Note.content note)).
    change (String.length "...") with 3%nat. lia.
  - split; [lia|reflexivity].
Qed.

Lemma getLatest_elem (notes : list Note.t) (cid : string) (n : Note.t) :
  n ∈ HomeScreen.getLatestNotesForCategory notes cid ->
  n ∈ notes /\ Note.categoryId n = cid.
Proof.
  unfold HomeScreen.getLatestNotesForCategory. intros Hn.
  apply elem_of_take in Hn as (i & Hi & _).
  apply list_elem_of_lookup_2, list_elem_of_In in Hi.
  apply Array_sort_In in Hi. apply filter_In in Hi as [Hin He].
  split; [now apply list_elem_of_In | now apply String.eqb_eq].
Qed.

Lemma getLatest_length (notes : list Note.t) (cid : string) :
  length (HomeScreen.getLatestNotesForCategory notes cid)
  = Nat.min 3 (count_in cid notes).
Proof.
  unfold HomeScreen.getLatestNotesForCategory, count_in.
  now rewrite length_take, Array_sort_length.
Qed.

(** X14. A category section of the Home screen, for any notes state: it has
    as many rows as the category has notes, but at most three; ['No notes in
    this category'] is shown exactly when the category has no note; every row
    stands for a note of the state with that category, its key and the id
    its actions carry are the id of the note, and its text has at most 23
    characters and is the whole content when that has at most 20. *)
Theorem renderCategorySection_rows (notes : list Note.t) (c : Category.t) :
  length (fst (HomeScreen.renderCategorySection notes c))
  = Nat.min 3 (count_in (Category.id c) notes) /\
  (snd (HomeScreen.renderCategorySection notes c) = true
   <-> count_in (Category.id c) notes = 0%nat) /\
  Forall
    (fun r =>
       exists note,
         note ∈ notes /\ Note.categoryId note = Category.id c /\
         HomeScreen.key r = Note.id note /\
         HomeScreen.rowNoteId r = Note.id note /\
         HomeScreen.text r = HomeScreen.rowText note /\
         (String.length (HomeScreen.text r) <= 23)%nat /\
         ((String.length (Note.content note) <= 20)%nat ->
          HomeScreen.text r = Note.content note))
    (fst (HomeScreen.renderCategorySection notes c)).
Proof.
  unfold HomeScreen.renderCategorySection. simpl. split; [|split].
  - now rewrite length_map, getLatest_length.
  - rewrite getLatest_length, Nat.eqb_eq.
    destruct (count_in (Category.id c) notes) as [|[|[|k]]]; simpl; lia.
  - apply List.Forall_forall. intros r Hr.
    apply in_map_iff in Hr as (note & <- & Hin).
    apply list_elem_of_In, getLatest_elem in Hin as [Hin Hc].
    exists note. simpl. repeat split; auto; apply rowText_length.
Qed.

Lemma NoDup_ids_inj (l : list Note.t) (x y : Note.t) :
  NoDup (map Note.id l) -> x ∈ l -> y ∈ l -> Note.id x = Note.id y -> x = y.
Proof.
  induction l as [|z l IH]; intros Hnd Hx Hy E.
  - now apply elem_of_nil in Hx.
  - simpl in Hnd. apply NoDup_cons in Hnd as [Hz Hnd].
    apply elem_of_cons in Hx as [-> | Hx], Hy as [-> | Hy]; auto.
    + exfalso. apply Hz. rewrite E. apply list_elem_of_fmap. eauto.
    + exfalso. apply Hz. rewrite <- E. apply list_elem_of_fmap. eauto.
Qed.

Lemma getLatest_ids_NoDup (notes : list Note.t) (cid : string) :
  NoDup (map Note.id notes) ->
  NoDup (map Note.id (HomeScreen.getLatestNotesForCategory notes cid)).
Proof.
  intros Hnd. unfold HomeScreen.getLatestNotesForCategory.
  change (map Note.id) with (fmap (M:=list) Note.id). rewrite fmap_take.
  eapply sublist_NoDup; [|apply sublist_take].
  change (fmap (M:=list) Note.id) with (map Note.id).
  rewrite (Permutation_map Note.id (Array_sort_perm _ _)).
  now apply NoDup_ids_filter.
Qed.

(** X15. If the ids of the notes state are distinct, no two rows of the Home
    screen have the same key (neither within a section nor across
    sections), and there are at most nine rows. *)
Theorem home_row_keys_distinct (notes : list Note.t) :
  NoDup (map Note.id notes) ->
  NoDup (rowKeys notes) /\ (length (rowKeys notes) <= 9)%nat.
Proof.
  intros Hnd.
  assert (Hk : forall c,
            map HomeScreen.key (fst (HomeScreen.renderCategorySection notes c))
            = map Note.id
                (HomeScreen.getLatestNotesForCategory notes (Category.id c))).
  { intros c. unfold HomeScreen.renderCategorySection. simpl.
    rewrite map_map. reflexivity. }
  unfold rowKeys, HomeScreen.renderSections, CATEGORIES.
  cbn [map concat]. rewrite !Hk. cbn [Category.id]. rewrite app_nil_r.
  assert (Hdisj : forall c1 c2 x, c1 <> c2 ->
            x ∈ map Note.id (HomeScreen.getLatestNotesForCategory notes c1) ->
            x ∈ map Note.id (HomeScreen.getLatestNotesForCategory notes c2) ->
            False).
  { intros c1 c2 x Hne H1 H2.
    apply list_elem_of_fmap in H1 as (n1 & -> & H1).
    apply list_elem_of_fmap in H2 as (n2 & E & H2).
    apply getLatest_elem in H1 as [H1 <-], H2 as [H2 <-].
    apply Hne. f_equal. now apply (NoDup_ids_inj notes). }
  split.
  - apply NoDup_app. split; [now apply getLatest_ids_NoDup|]. split.
    + intros x H1 H2. apply elem_of_app in H2 as [H2 | H2];
        eapply Hdisj; [| exact H1 | exact H2 | | exact H1 | exact H2];
        discriminate.
    + apply NoDup_app. split; [now apply getLatest_ids_NoDup|].
      split; [|now apply getLatest_ids_NoDup].
      intros x H1 H2. eapply Hdisj; [| exact H1 | exact H2]. discriminate.
  - rewrite !length_app, !length_map, !getLatest_length. lia.
Qed.

(** X16. The Summary screen counts only notes of the fixed categories: the
    three counts of [countNotes] add up to the number of notes whose
    category is one of the three ids, so a note of any other category is in
    none of the counts, and the total never exceeds the number of notes. *)
Theorem countNotes_total (ns : list Note.t) :
  sum_list (map (SummaryScreen.shownCount (SummaryScreen.countNotes ns))
              CATEGORIES)
  = length (List.filter known_categoryb ns) /\
  (length (List.filter known_categoryb ns) <= length ns)%nat.
Proof.
  split; [|apply filter_length_le].
  unfold CATEGORIES. cbn [map sum_list].
  unfold SummaryScreen.shownCount.
  rewrite !countNotes_lookup by (unfold CATEGORIES; set_solver).
  cbn [Category.id]. unfold count_in.
  induction ns as [|n ns IH]; [reflexivity|].
  cbn [List.filter]. unfold known_categoryb at 1.
  unfold category_ids, CATEGORIES. cbn [map Category.id existsb].
  destruct (Note.categoryId n =? "work-study")%string eqn:E1;
    destruct (Note.categoryId n =? "life")%string eqn:E2;
    destruct (Note.categoryId n =? "health")%string eqn:E3;
    cbn [orb length];
    try (apply String.eqb_eq in E1);
    try (apply String.eqb_eq in E2);
    try (apply String.eqb_eq in E3);
    try congruence; unfold id in *; lia.
Qed.

End Shown.

(** ** Timestamps *)

Section Timestamps.
Context {P : Platform}.
Import NoteScreen.

Lemma stamped_mono (t : nat -> Z) (k k' : nat) (n : Note.t) :
  (k <= k')%nat -> stamped t k n -> stamped t k' n.
Proof.
  intros Hk (j & j' & H1 & H2 & H3 & H4). exists j, j'.
  repeat split; auto; lia.
Qed.

Lemma newNote_stamped (p : RouteParams) (st : State) (notes : list Note.t)
  (w w1 : World) (n : Note.t) :
  Forall (stamped (time w) (reads w)) notes ->
  newNote p st notes w = (Ok n, w1) ->
  stamped (time w) (reads w1) n.
Proof.
  intros Hs. unfold newNote, bind, ret, new_Date_toISOString, Date_now,
    bind, ret, now, stamped.
  destruct (truthy_opt (noteId p)).
  - destruct (find _ notes) as [old|] eqn:Hf.
    + destruct (truthy (Note.createdAt old)); simpl; intros [= <- <-]; simpl.
      * apply find_some in Hf as [Hin _].
        rewrite List.Forall_forall in Hs.
        destruct (Hs old Hin) as (j & j' & H1 & H2 & H3 & _).
        exists j, (reads w). repeat split; auto; lia.
      * exists (reads w), (S (reads w)). repeat split; lia.
    + simpl. intros [= <- <-]. simpl.
      exists (reads w), (S (reads w)). repeat split; lia.
  - simpl. intros [= <- <-]. simpl.
    exists (S (reads w)), (S (S (reads w))). repeat split; lia.
Qed.

Lemma reachable_stamped (a : App.t) (ns : list Note.t) :
  App.reachable App.any_navigation a ->
  persisted (App.world a) = Some ns ->
  Forall (stamped (time (App.world a)) (reads (App.world a))) ns.
Proof.
  apply (reachable_persisted App.any_navigation
           (fun t k => Forall (stamped t k))).
  - constructor.
  - intros t k k' l Hk Hl. eapply Forall_impl; [exact Hl|].
    intros n. now apply stamped_mono.
  - intros t k l f. apply Forall_filter_keep.
  - intros p evs w l st0 n w1 _ _ Hl _ _ Hn.
    pose proof (newNote_stamped _ _ _ _ _ _ Hl Hn) as Hst.
    destruct (newNote_total p (foldl App.handle st0 evs) l w)
      as (n' & w1' & Hn' & _ & _ & _ & _ & Hle & _).
    rewrite Hn in Hn'. injection Hn' as <- <-.
    apply Forall_written; [exact Hst|].
    eapply Forall_impl; [exact Hl|]. intros m. now apply stamped_mono.
Qed.

(** X17. If the clock never goes back, then in every reachable state every
    persisted note has a [createdAt] and an [updatedAt] that are dates, and
    it was not updated before it was created. *)
Theorem updated_not_before_created (a : App.t) (ns : list Note.t) :
  App.reachable App.any_navigation a ->
  monotone (time (App.world a)) ->
  persisted (App.world a) = Some ns ->
  Forall
    (fun n =>
       exists tc tu,
         Date_getTime (Note.createdAt n) = Some tc /\
         Date_getTime (Note.updatedAt n) = Some tu /\
         (tc <= tu)%Z) ns.
Proof.
  intros Hr Hm Hp.
  eapply Forall_impl; [exact (reachable_stamped a ns Hr Hp)|].
  intros n (j & j' & H1 & H2 & -> & ->).
  eexists _, _. rewrite !getTime_toISOString.
  repeat split. now apply Hm.
Qed.

End Timestamps.

(** ** Editing a stored note *)

Section EditStored.
Context {P : Platform}.
Import NoteScreen.


End EditStored.

(** ** Concrete runs of an edit *)

Section EditStoredRuns.
Import NoteScreen Runs.



End EditStoredRuns.

(** ** The newest note comes first *)

Section Newest.
Context {A : Type}.
Variable cmp : A -> A -> option Z.
Variable key : A -> Z.

Lemma Array_sort_newest_last (l : list A) (x : A) :
  compares_keys cmp key (l ++ [x]) ->
  Forall (fun y => (key y < key x)%Z) l ->
  Array_sort cmp (l ++ [x]) = x :: Array_sort cmp l.
Proof.
  intros Hc Hl. induction l as [|y l IH]; [reflexivity|].
  apply Forall_cons in Hl as [Hy Hl].
  simpl. rewrite IH; [|intros a b Ha Hb; apply Hc; now right | exact Hl].
  simpl.
  assert (Hyx : SortCompare cmp y x = (key x - key y)%Z).
  { apply Hc; [now left|]. right. apply in_or_app. right. now left. }
  rewrite Hyx. destruct (Z.leb_spec (key x - key y) 0); [lia|reflexivity].
Qed.

End Newest.

Section NewestNote.
Context {P : Platform}.
Import NoteScreen.

Lemma filter_category_snoc (l : list Note.t) (n : Note.t) :
  List.filter
    (fun m => (Note.categoryId m =? Note.categoryId n)%string) (l ++ [n])
  = List.filter
      (fun m => (Note.categoryId m =? Note.categoryId n)%string) l ++ [n].
Proof.
  rewrite List.filter_app. simpl. now rewrite String.eqb_refl.
Qed.

(** A note that is newer than every other note comes first in its
    category. *)
Lemma getLatest_newest_last (prior : list Note.t) (n : Note.t) :
  Forall (fun m => dated m /\ (createdTime m < createdTime n)%Z) prior ->
  dated n ->
  HomeScreen.getLatestNotesForCategory (prior ++ [n]) (Note.categoryId n)
  = n :: take 2
           (HomeScreen.getLatestNotesForCategory prior (Note.categoryId n)).
Proof.
  intros Hprior Hn.
  unfold HomeScreen.getLatestNotesForCategory.
  rewrite filter_category_snoc.
  set (matching := List.filter _ prior).
  assert (Hm : Forall (fun m => dated m /\ (createdTime m < createdTime n)%Z)
                 matching).
  { subst matching. apply List.Forall_forall. intros m Hin.
    apply filter_In in Hin as [Hin _].
    rewrite List.Forall_forall in Hprior. now apply Hprior. }
  rewrite (Array_sort_newest_last HomeScreen.byCreatedAtDesc createdTime).
  - simpl. f_equal. rewrite take_take. reflexivity.
  - apply byCreatedAtDesc_compares. apply Forall_app. split.
    + eapply Forall_impl; [exact Hm|]. now intros m [H _].
    + now constructor.
  - eapply Forall_impl; [exact Hm|]. now intros m [_ H].
Qed.

(** X18. A new note shows at the top of its category. In a reachable state
    whose store works and whose clock has advanced at every reading, after
    a valid draft is saved as a new note the Home screen loads the previous
    notes followed by the new one, and the section of the category of the
    draft starts with the new note, followed by the first two notes it
    showed before. *)
Theorem saved_note_shows_first (a : App.t) (p : RouteParams) (st : State)
  (prior : list Note.t) :
  App.reachable App.any_navigation a ->
  advancing (time (App.world a)) ->
  reads_ok (App.world a) = true -> writes_ok (App.world a) = true ->
  persisted (App.world a) = Some prior ->
  truthy_opt (noteId p) = false ->
  trim (content st) <> "" ->
  exists (w' : World) (n : Note.t),
    saveNote p st (App.world a)
    = (Ok (setError None st, Some (Navigate "Home")), w') /\
    HomeScreen.loadNotes w' = (Ok (prior ++ [n]), w') /\
    Note.content n = trim (content st) /\
    Note.categoryId n = selectedCategory st /\
    HomeScreen.getLatestNotesForCategory (prior ++ [n]) (selectedCategory st)
    = n :: take 2
             (HomeScreen.getLatestNotesForCategory prior
                (selectedCategory st)).
Proof.
  intros Hreach Hadv Hr Hw Hp Hid Hv. apply truthy_true in Hv.
  set (w := App.world a) in *.
  destruct (saveNote_run p st w prior Hv Hr Hw Hp)
    as (n & w1 & Hn & Hi & Hr1 & Hw1 & Ht & Hs).
  rewrite newNote_new in Hn by exact Hid. injection Hn as <- <-.
  eexists _, _. split; [exact Hs|].
  unfold written. rewrite Hid.
  set (n := Note.mk (Number_toString (time w (reads w))) (title st)
              (trim (content st)) (selectedCategory st)
              (toISOString (time w (S (reads w))))
              (toISOString (time w (S (S (reads w)))))).
  split.
  { rewrite HomeScreen_loadNotes_run. simpl reads_ok. rewrite Hr.
    unfold persisted. simpl item. rewrite decode_stringify. reflexivity. }
  split; [reflexivity|]. split; [reflexivity|].
  assert (Hcn : createdTime n = time w (S (reads w))).
  { unfold createdTime, n. simpl. now rewrite getTime_toISOString. }
  apply (getLatest_newest_last prior n).
  - eapply Forall_impl; [exact (reachable_stamped a prior Hreach Hp)|].
    intros m (j & j' & H1 & H2 & H3 & _). fold w in H2, H3.
    assert (Hcm : createdTime m = time w j).
    { unfold createdTime. now rewrite H3, getTime_toISOString. }
    split.
    + unfold dated. rewrite H3, getTime_toISOString. eauto.
    + rewrite Hcm, Hcn. apply Hadv. lia.
  - unfold dated, n. simpl. rewrite getTime_toISOString. eauto.
Qed.

End NewestNote.

(** ** Opening the Note screen without a stored note *)

Section MountEdges.
Context {P : Platform}.
Import NoteScreen.

(** X19. Opening the Note screen with an id that cannot be loaded - the
    read is rejected, the stored text does not parse, or no stored note has
    the id - raises nothing, changes nothing in the world, and leaves the
    form as it was except for the category of the route parameter. *)
Theorem mount_without_note (p : RouteParams) (st : State) (w : World)
  (i : string) :
  noteId p = Some i ->
  reads_ok w = false \/ persisted w = None \/
  (exists ns, persisted w = Some ns /\ i ∉ map Note.id ns) ->
  mount p st w
  = (Ok (match categoryId p with
         | Some c => if truthy c then setSelectedCategory c st else st
         | None => st
         end), w).
Proof.
  intros Hi Hbad. unfold mount. rewrite Hi.
  set (st1 := match categoryId p with
              | Some c => if truthy c then setSelectedCategory c st else st
              | None => st
              end).
  destruct (truthy i); [|reflexivity].
  unfold loadNote, try_catch, bind, AsyncStorage.getItem.
  destruct (reads_ok w) eqn:Hr; [|reflexivity].
  destruct Hbad as [? | Hbad]; [discriminate|].
  unfold persisted, decode in Hbad.
  destruct (item w) as [s|]; [|reflexivity].
  destruct (truthy s); [|reflexivity].
  unfold JSON_parse_M.
  destruct Hbad as [-> | (ns & -> & Hni)]; [reflexivity|].
  unfold ret at 1. apply find_id_None in Hni. now rewrite Hni.
Qed.

End MountEdges.

(** ** Concrete runs of the further properties *)

Section MoreRunLemmas.
Import NoteScreen Runs MoreRuns.

(** X1, at an input: [milk] is deleted from a screen that shows [milk] and
    [eggs]. *)
Lemma deleteNote_present_witness :
  HomeScreen.deleteNote [milk; eggs] (Note.id milk) milk_store
  = (Ok (delete 0%nat [milk; eggs], None),
     set_item (Some (JSON_stringify (delete 0%nat [milk; eggs]))) milk_store) /\
  S (length (delete 0%nat [milk; eggs])) = length [milk; eggs] /\
  (Note.id milk ∉ map Note.id (delete 0%nat [milk; eggs])) /\
  persisted
    (set_item (Some (JSON_stringify (delete 0%nat [milk; eggs]))) milk_store)
  = Some (delete 0%nat [milk; eggs]).
Proof.
  apply (deleteNote_present [milk; eggs] 0 milk milk_store);
    [ reflexivity
    | apply (bool_decide_unpack _); vm_compute; exact I
    | reflexivity ].
Defined.

(** X2, at an input: [milk] is deleted twice. *)
Lemma deleteNote_twice_witness :
  exists ns : list Note.t,
    HomeScreen.deleteNote [milk; eggs] "1000" milk_store
    = (Ok (ns, None), set_item (Some (JSON_stringify ns)) milk_store) /\
    HomeScreen.deleteNote ns "1000"
      (set_item (Some (JSON_stringify ns)) milk_store)
    = (Ok (ns, None), set_item (Some (JSON_stringify ns)) milk_store) /\
    item (set_item (Some (JSON_stringify ns)) milk_store)
    = Some (JSON_stringify ns) /\
    persisted (set_item (Some (JSON_stringify ns)) milk_store) = Some ns /\
    ("1000" ∉ map Note.id ns) /\
    (forall n, n ∈ ns <-> n ∈ [milk; eggs] /\ Note.id n <> "1000") /\
    ("1000" ∉ map Note.id [milk; eggs] -> ns = [milk; eggs]).
Proof.
  apply (deleteNote_twice [milk; eggs] "1000" milk_store). reflexivity.
Defined.

(** X3, at an input: the store rejects writes. *)
Lemma write_failure_witness :
  (forall notes noteId,
     HomeScreen.deleteNote notes noteId read_only_store
     = (Ok (notes, Some (Alert "Error" "Failed to delete note")),
        read_only_store)) /\
  SettingsScreen.clearAllNotes read_only_store
  = (Ok (Alert "Error" "Failed to delete notes"), read_only_store) /\
  (forall p st, exists st' eff w',
     NoteScreen.saveNote p st read_only_store = (Ok (st', eff), w') /\
     item w' = item read_only_store /\
     eff <> Some (Navigate "Home")).
Proof.
  apply (write_failure_keeps_store read_only_store). reflexivity.
Defined.

(** X4, at an input: the store that holds [milk] is cleared. *)
Lemma clearAllNotes_witness :
  SettingsScreen.clearAllNotes milk_store
  = (Ok (ClearedPopupThenNavigate "Home"), set_item None milk_store) /\
  HomeScreen.loadNotes (set_item None milk_store)
  = (Ok [], set_item None milk_store) /\
  exists counts,
    SummaryScreen.loadNotes (set_item None milk_store)
    = (Ok ([], counts), set_item None milk_store) /\
    forall c, SummaryScreen.shownCount counts c = 0%nat.
Proof.
  apply (clearAllNotes_then_load milk_store). reflexivity.
Defined.

(** X5, at an input: a draft of three spaces. *)
Lemma saveNote_blank_witness :
  saveNote no_params (draft "   ") milk_store
  = (Ok (setError (Some "Note content is required") (draft "   "), None),
     milk_store).
Proof.
  apply (saveNote_blank_rejected no_params (draft "   ") milk_store).
  reflexivity.
Defined.

(** X7, at an input: the stored text is not a collection. *)
Lemma saveNote_unreadable_witness :
  saveNote no_params (draft "a") garbled_store
  = (Ok (setError None (draft "a"),
         Some (Alert "Error" "Failed to save note. Please try again.")),
     garbled_store).
Proof.
  apply (saveNote_unreadable_store no_params (draft "a") garbled_store);
    [discriminate | right; vm_compute; reflexivity].
Defined.

(** X8, at an input: [milk] is edited. *)
Lemma saveNote_edit_witness :
  exists (w' : World) (after : list Note.t) (n : Note.t),
    saveNote (mkParams (Some "1000") None) (draft "Eggs") milk_store
    = (Ok (setError None (draft "Eggs"), Some (Navigate "Home")), w') /\
    persisted w' = Some after /\
    length after = length [milk] /\
    map Note.id after = map Note.id [milk] /\
    Note.id n = "1000" /\
    Note.content n = trim (content (draft "Eggs")) /\
    (forall j m, [milk] !! j = Some m ->
       after !! j = Some (if (Note.id m =? "1000")%string then n else m)).
Proof.
  apply (saveNote_edit_shape (mkParams (Some "1000") None) (draft "Eggs")
           milk_store [milk] "1000");
    [ reflexivity | reflexivity | vm_compute; reflexivity | reflexivity
    | discriminate | discriminate ].
Defined.

(** X9, at an input: a third save after two. *)
Lemma reachable_store_witness :
  (exists ns, persisted (App.world (two_saves ticking)) = Some ns) /\
  (reads_ok (App.world (two_saves ticking)) = true ->
   writes_ok (App.world (two_saves ticking)) = true ->
   trim (content (draft "c")) <> "" ->
   exists w', saveNote no_params (draft "c") (App.world (two_saves ticking))
              = (Ok (setError None (draft "c"), Some (Navigate "Home")), w')).
Proof.
  apply (reachable_store_parses (two_saves ticking) no_params (draft "c")).
  unfold two_saves; repeat (apply App.reach_step; [|exact I]);
    apply App.reach_fresh.
Defined.

(** X10, at an input: the Note screen is opened on [milk], with a category
    parameter. *)
Lemma mount_loads_note_witness :
  exists st',
    mount (mkParams (Some (Note.id milk)) (Some "life")) initial milk_store
    = (Ok st', milk_store) /\
    title st' = Note.title milk /\
    content st' = Note.content milk /\
    selectedCategory st' = Note.categoryId milk /\
    error st' = error initial.
Proof.
  apply (mount_loads_note (Some "life") initial milk_store [milk] 0 milk);
    [ reflexivity | vm_compute; reflexivity | apply NoDup_singleton
    | reflexivity | discriminate ].
Defined.

(** X11, at an input: [" Buy milk "] is saved and opened again. *)
Lemma save_then_open_witness :
  exists (w' : World) (st' : State),
    saveNote no_params (draft " Buy milk ") (empty_store ticking)
    = (Ok (setError None (draft " Buy milk "), Some (Navigate "Home")), w') /\
    mount (mkParams (Some (Number_toString (now (empty_store ticking)))) None)
      initial w'
    = (Ok st', w') /\
    title st' = title (draft " Buy milk ") /\
    content st' = trim (content (draft " Buy milk ")) /\
    selectedCategory st' = selectedCategory (draft " Buy milk ").
Proof.
  apply (save_then_open no_params (draft " Buy milk ") (empty_store ticking)
           []);
    [ reflexivity | reflexivity | reflexivity | reflexivity | discriminate
    | apply NoDup_nil_2 | apply not_elem_of_nil ].
Defined.

(** X12, at an input: the state after two saves. *)
Lemma content_never_exceeds_witness :
  Forall (fun n => (String.length (Note.content n) <= 200)%nat)
    [Note.mk "1000" "" "a" "work-study" "1001" "1002";
     Note.mk "1003" "" "b" "work-study" "1004" "1005"] /\
  (forall p evs, exists st0,
     mount p initial (App.world (two_saves ticking))
     = (Ok st0, App.world (two_saves ticking)) /\
     (charCount (foldl App.handle st0 evs) <= 200)%nat).
Proof.
  apply (content_never_exceeds_200 (two_saves ticking));
    [ unfold two_saves; repeat (apply App.reach_step; [|exact I]);
      apply App.reach_fresh
    | vm_compute; reflexivity ].
Defined.

(** X13, at an input: the screen is opened with ['health'] and the user
    picks the second category. *)
Lemma dropdownText_witness :
  (forall st, selectedCategory st ∉ category_ids ->
     dropdownText st = "Choose a category") /\
  exists st0 c,
    mount (mkParams None (Some "health")) initial
      (App.world (save_in (Some "life")))
    = (Ok st0, App.world (save_in (Some "life"))) /\
    c ∈ CATEGORIES /\
    selectedCategory
      (foldl App.handle st0 [App.ToggleDropdown; App.PickCategory 1])
    = Category.id c /\
    dropdownText
      (foldl App.handle st0 [App.ToggleDropdown; App.PickCategory 1])
    = Category.name c.
Proof.
  apply (dropdownText_names_category (save_in (Some "life"))
           (mkParams None (Some "health"))
           [App.ToggleDropdown; App.PickCategory 1]).
  - unfold save_in. apply App.reach_step; [apply App.reach_fresh|].
    simpl. unfold App.known_category. simpl. right.
    unfold category_ids. simpl. set_solver.
  - unfold App.known_category. simpl. right.
    unfold category_ids. simpl. set_solver.
Defined.

(** X15, at an input: three notes of one category. *)
Lemma home_row_keys_witness :
  NoDup (rowKeys three_life) /\ (length (rowKeys three_life) <= 9)%nat.
Proof.
  apply (home_row_keys_distinct three_life).
  apply (bool_decide_unpack _); vm_compute; exact I.
Defined.

(** X17, at an input: the state after two saves on the ticking clock. *)
Lemma updated_not_before_created_witness :
  Forall
    (fun n =>
       exists tc tu,
         Date_getTime (Note.createdAt n) = Some tc /\
         Date_getTime (Note.updatedAt n) = Some tu /\
         (tc <= tu)%Z)
    [Note.mk "1000" "" "a" "work-study" "1001" "1002";
     Note.mk "1003" "" "b" "work-study" "1004" "1005"].
Proof.
  apply (updated_not_before_created (two_saves ticking));
    [ unfold two_saves; repeat (apply App.reach_step; [|exact I]);
      apply App.reach_fresh
    | change (monotone ticking); intros i j H; unfold ticking; lia
    | vm_compute; reflexivity ].
Defined.

(** X18, at an input: a second note is saved after [first_x]. *)
Lemma saved_note_shows_first_witness :
  exists (w' : World) (n : Note.t),
    saveNote no_params (draft "y") (App.world (save_in None))
    = (Ok (setError None (draft "y"), Some (Navigate "Home")), w') /\
    HomeScreen.loadNotes w' = (Ok ([first_x] ++ [n]), w') /\
    Note.content n = trim (content (draft "y")) /\
    Note.categoryId n = selectedCategory (draft "y") /\
    HomeScreen.getLatestNotesForCategory ([first_x] ++ [n])
      (selectedCategory (draft "y"))
    = n :: take 2
             (HomeScreen.getLatestNotesForCategory [first_x]
                (selectedCategory (draft "y"))).
Proof.
  apply (saved_note_shows_first (save_in None) no_params (draft "y")
           [first_x]);
    [ unfold save_in; apply App.reach_step; [apply App.reach_fresh | exact I]
    | change (advancing ticking); intros i j H; unfold ticking; lia
    | reflexivity | reflexivity | vm_compute; reflexivity | reflexivity
    | discriminate ].
Defined.

(** X19, at an input: the Note screen is opened with an id that is not
    stored. *)
Lemma mount_without_note_witness :
  mount (mkParams (Some "42") (Some "life")) initial milk_store
  = (Ok (match categoryId (mkParams (Some "42") (Some "life")) with
         | Some c => if truthy c then setSelectedCategory c initial
                     else initial
         | None => initial
         end), milk_store).
Proof.
  apply (mount_without_note (mkParams (Some "42") (Some "life")) initial
           milk_store "42"); [reflexivity|].
  right. right. exists [milk]. split; [vm_compute; reflexivity|].
  simpl. rewrite elem_of_cons, elem_of_nil. intros [H | []]. discriminate.
Defined.

End MoreRunLemmas.
